(** * Streaming demos of the OpenAI SDK examples

    A shallow embedding of the chunk-consumption loops of
    [src/streaming/simple_example.py] and [src/streaming/main.py]
    (class [StreamingDemo]), and the properties of the reconstructed text,
    of the recorded function calls and of the live statistics.

    Layout: Python values, the client's chunk type, the stream and the
    [async for] loop, the console, the demos, reference definitions, then
    the lemmas. *)

From Stdlib Require Import ZArith NArith List Bool Lia String Ascii.
From stdpp Require Import base list.
Import ListNotations.

Local Open Scope list_scope.

(** ** Python values *)

(** A Python [str] is a sequence of Unicode code points. *)
Definition codepoint := N.
Definition str := list codepoint.

(** An ASCII literal of the source as a [str]. *)
Definition lit (s : string) : str :=
  map N_of_ascii (list_ascii_of_string s).

(** Truth value of an [Optional[str]]: [None] and the empty string are
    false. *)
Definition truthy (o : option str) : bool :=
  match o with
  | Some (_ :: _) => true
  | _ => false
  end.

(** [o or s] with [s] the empty string. *)
Definition or_empty (o : option str) : str :=
  if truthy o then default [] o else [].

(** [str.isspace] on one code point: the table of CPython's
    [_PyUnicode_IsWhitespace]. *)
Definition isspace (c : codepoint) : bool :=
  ((9 <=? c) && (c <=? 13) || (28 <=? c) && (c <=? 32)
   || (c =? 133) || (c =? 160) || (c =? 5760)
   || (8192 <=? c) && (c <=? 8202)
   || (c =? 8232) || (c =? 8233) || (c =? 8239) || (c =? 8287)
   || (c =? 12288))%N.

(** [s.split()] without arguments: the maximal runs of non-whitespace code
    points, in order. [word] is the run being read. *)
Fixpoint split_from (word : str) (s : str) : list str :=
  match s with
  | [] => match word with [] => [] | _ => [word] end
  | c :: s' =>
      if isspace c
      then match word with
           | [] => split_from [] s'
           | _ => word :: split_from [] s'
           end
      else split_from (word ++ [c]) s'
  end.

Definition split (s : str) : list str := split_from [] s.

(** The code point of an ASCII character of the source. *)
Definition ord (a : ascii) : codepoint := N_of_ascii a.

(** [s.count(ch)] for a one-character [ch]. *)
Definition count (ch : codepoint) (s : str) : Z :=
  Z.of_nat (length (List.filter (fun c => (c =? ch)%N) s)).

(** [ch in s] for a one-character [ch]. *)
Definition contains (ch : codepoint) (s : str) : bool :=
  existsb (fun c => (c =? ch)%N) s.

(** [len(x)] as a Python int. *)
Definition len {A} (l : list A) : Z := Z.of_nat (length l).

(** The exceptions the demos can meet. [IndexError] and the client's
    [APIError] derive from [Exception]. [KeyboardInterrupt] is the user's
    Ctrl-C: it reaches the coroutine where it awaits the next chunk, as a
    [BaseException] that is not an [Exception] (asyncio delivers it as a
    cancellation), and leaves [asyncio.run] as [KeyboardInterrupt].
    [MarkupError] is what the console of main.py raises on a text it cannot
    parse as markup; it derives from [Exception]. *)
Inductive exception :=
| IndexError
| APIError (message : str)
| KeyboardInterrupt
| MarkupError (message : str).

(** [isinstance(e, Exception)], what [except Exception] tests. *)
Definition isinstance_Exception (e : exception) : bool :=
  match e with
  | IndexError | APIError _ | MarkupError _ => true
  | KeyboardInterrupt => false
  end.

(** How a call ends: it returns [None], or an exception leaves it. *)
Inductive outcome :=
| Returned
| Propagated (e : exception).

(** ** The client's streamed chunks *)

Module openai.

(** [chunk.choices[0].delta.function_call] *)
Record ChoiceDeltaFunctionCall := {
  name : option str;
  arguments : option str
}.

(** [chunk.choices[0].delta] *)
Record ChoiceDelta := {
  content : option str;
  function_call : option ChoiceDeltaFunctionCall
}.

Record Choice := { delta : ChoiceDelta }.

Record ChatCompletionChunk := { choices : list Choice }.

(** The async iterator returned by [chat.completions.create(stream=True)]:
    it yields chunks until it is exhausted or raises. *)
Inductive AsyncStream :=
| StopAsyncIteration
| Raise (e : exception)
| Yield (chunk : ChatCompletionChunk) (rest : AsyncStream).

End openai.

Import openai.

(** [chunk.choices[0].delta]; an empty [choices] raises [IndexError]. *)
Definition choices_0_delta (chunk : ChatCompletionChunk) : exception + ChoiceDelta :=
  match choices chunk with
  | [] => inl IndexError
  | c :: _ => inr (delta c)
  end.

(** [async for chunk in stream: body]. Every loop of the demos begins its
    body by reading [chunk.choices[0].delta], which raises before anything
    is changed when [choices] is empty; [body] is the rest of the body, on
    that delta. The result is the state the loop had reached and the
    exception that ended it, if any. *)
Section AsyncFor.
Context {S : Type}.
Variable body : ChoiceDelta -> S -> S.

Fixpoint async_for (stream : AsyncStream) (st : S) : S * option exception :=
  match stream with
  | StopAsyncIteration => (st, None)
  | Raise e => (st, Some e)
  | Yield chunk rest =>
      match choices_0_delta chunk with
      | inl e => (st, Some e)
      | inr d => async_for rest (body d st)
      end
  end.
End AsyncFor.

(** What the demos write to the terminal, in order. *)
Inductive printed :=
| Title
| Content (content : str)
| CompleteResponse (full_response : str)
| ErrorMessage (e : exception)
| FunctionCallsDetected
| FunctionCallPanel (name arguments : str)
| LiveUpdate (words sentences characters : Z) (current_sentence : str)
| Interrupted
| ErrorRunningExample (e : exception)
| FullResponseCollected.

(** ** The console of main.py *)

(** The same loop when the body itself can raise. [body] gives the state
    it leaves and the exception that left it, if any; the loop stops at the
    first exception. *)
Section AsyncForRaising.
Context {S : Type}.
Variable body : ChoiceDelta -> S -> S * option exception.

Fixpoint async_for_raising (stream : AsyncStream) (st : S) : S * option exception :=
  match stream with
  | StopAsyncIteration => (st, None)
  | Raise e => (st, Some e)
  | Yield chunk rest =>
      match choices_0_delta chunk with
      | inl e => (st, Some e)
      | inr d =>
          match body d st with
          | (st', None) => async_for_raising rest st'
          | (st', Some e) => (st', Some e)
          end
      end
  end.
End AsyncForRaising.

(** [str(e)], as the handlers put it into their messages. *)
Definition str_of (e : exception) : str :=
  match e with
  | IndexError => lit "list index out of range"
  | APIError message => message
  | KeyboardInterrupt => []
  | MarkupError message => message
  end.

(** main.py prints through [rich.console.Console], which reads every text
    it is given as markup and raises [MarkupError] when the text does not
    parse (a closing tag with no tag to close). The parser is the
    library's, not this repository's: [markup_error text] stands for the
    message of the error it raises on [text], [None] when it accepts
    [text]. [console.print(text)] then shows [line] or raises. *)
Definition console_print {A : Type} (markup_error : str -> option str)
    (text : str) (line : A) (console : list A) : list A * option exception :=
  match markup_error text with
  | Some message => (console, Some (MarkupError message))
  | None => (console ++ [line], None)
  end.

(** [except Exception as e: console.print(f"...{e}...")] at the end of a
    demo: an [Exception] is reported through the console, whose own
    [MarkupError] then leaves the demo; any other exception passes. *)
Definition except_Exception {A : Type} (markup_error : str -> option str)
    (error_text : exception -> str) (error_line : exception -> A)
    (console : list A) (raised : option exception) : list A * outcome :=
  match raised with
  | None => (console, Returned)
  | Some e =>
      if isinstance_Exception e
      then match console_print markup_error (error_text e) (error_line e) console with
           | (console, None) => (console, Returned)
           | (console, Some e') => (console, Propagated e')
           end
      else (console, Propagated e)
  end.

(** ** src/streaming/simple_example.py *)

Module simple_example.

(** The loop's variables: [full_response] and the terminal. *)
Record locals := {
  full_response : str;
  stdout : list printed
}.

(** Body of the loop of [streaming_with_collection]. *)
Definition streaming_with_collection_body (d : ChoiceDelta) (st : locals) : locals :=
  match content d with
  | Some content =>
      {| full_response := full_response st ++ content;
         stdout := stdout st ++ [Content content] |}
  | None => st
  end.

(** The variables when the loop is entered: the heading is printed and
    [full_response] is empty. *)
Definition entry : locals := {| full_response := []; stdout := [Title] |}.

(** [streaming_with_collection()]. [create] is what awaiting
    [client.chat.completions.create(...)] gives: a stream, or an
    exception. The function has no return value; its effect is what it
    prints. *)
Definition streaming_with_collection (create : exception + AsyncStream)
  : list printed * outcome :=
  let st := entry in
  let '(st, raised) :=
    match create with
    | inl e => (st, Some e)
    | inr stream =>
        match async_for streaming_with_collection_body stream st with
        | (st, None) =>
            ({| full_response := full_response st;
                stdout := stdout st ++ [CompleteResponse (full_response st)] |},
             None)
        | (st, Some e) => (st, Some e)
        end
    end in
  match raised with
  | None => (stdout st, Returned)
  | Some e =>
      if isinstance_Exception e
      then (stdout st ++ [ErrorMessage e], Returned)
      else (stdout st, Propagated e)
  end.



End simple_example.

(** ** src/streaming/main.py, class StreamingDemo *)

Module StreamingDemo.

(** *** basic_streaming_demo *)

Record basic_locals := {
  full_response : str;
  console : list printed
}.

(** Body of the loop of [basic_streaming_demo]: the content is added to
    [full_response], then printed, which can raise. The result is the
    variables the body leaves and the exception that left it, if any. *)
Definition basic_streaming_demo_body (markup_error : str -> option str)
    (d : ChoiceDelta) (st : basic_locals) : basic_locals * option exception :=
  match content d with
  | Some content =>
      let full_response := full_response st ++ content in
      let '(console, raised) :=
        console_print markup_error content (Content content) (console st) in
      ({| full_response := full_response; console := console |}, raised)
  | None => (st, None)
  end.

Definition basic_entry : basic_locals := {| full_response := []; console := [Title] |}.

(** [f"[red]Error during streaming: {e}[/red]"] *)
Definition streaming_error_text (e : exception) : str :=
  lit "[red]Error during streaming: " ++ str_of e ++ lit "[/red]".

(** [basic_streaming_demo()]. After the loop the heading of the full
    response is printed, then [Panel(full_response)], which the console
    reads as markup too. *)
Definition basic_streaming_demo (markup_error : str -> option str)
    (create : exception + AsyncStream) : list printed * outcome :=
  let st := basic_entry in
  let '(console, raised) :=
    match create with
    | inl e => (console st, Some e)
    | inr stream =>
        match async_for_raising (basic_streaming_demo_body markup_error) stream st with
        | (st, None) =>
            console_print markup_error (full_response st)
              (CompleteResponse (full_response st))
              (console st ++ [FullResponseCollected])
        | (st, Some e) => (console st, Some e)
        end
    end in
  except_Exception markup_error streaming_error_text ErrorMessage console raised.

(** *** function_calling_streaming_demo *)

(** One element of [function_calls]: the dict
    [{"name": ..., "arguments": ...}]. *)
Record func_call := {
  name : str;
  arguments : str
}.

Record calling_locals := {
  function_calls : list func_call;
  content_parts : list str;
  calling_console : list printed
}.

(** [function_calls[-1]["arguments"] += text] *)
Definition extend_last (text : str) (function_calls : list func_call) : list func_call :=
  alter (fun c => {| name := name c; arguments := arguments c ++ text |})
        (length function_calls - 1) function_calls.

(** What the body of the loop of [function_calling_streaming_demo] does to
    the variables when its [console.print(content)] raises nothing. *)
Definition function_calling_streaming_demo_body (d : ChoiceDelta) (st : calling_locals)
  : calling_locals :=
  let st :=
    match content d with
    | Some content =>
        {| function_calls := function_calls st;
           content_parts := content_parts st ++ [content];
           calling_console := calling_console st ++ [Content content] |}
    | None => st
    end in
  match function_call d with
  | Some function_call =>
      if truthy (openai.name function_call)
      then {| function_calls :=
                function_calls st ++
                [{| name := default [] (openai.name function_call);
                    arguments := or_empty (openai.arguments function_call) |}];
              content_parts := content_parts st;
              calling_console := calling_console st |}
      else if truthy (openai.arguments function_call)
      then match function_calls st with
           | [] => st
           | _ :: _ =>
               {| function_calls :=
                    extend_last (default [] (openai.arguments function_call))
                                (function_calls st);
                  content_parts := content_parts st;
                  calling_console := calling_console st |}
           end
      else st
  | None => st
  end.

Definition calling_entry : calling_locals :=
  {| function_calls := []; content_parts := []; calling_console := [Title] |}.

(** The body of the loop: the content is kept, then printed, which can
    raise before the function call of the chunk is looked at. *)
Definition function_calling_streaming_demo_step (markup_error : str -> option str)
    (d : ChoiceDelta) (st : calling_locals) : calling_locals * option exception :=
  match content d with
  | Some content =>
      match markup_error content with
      | Some message =>
          ({| function_calls := function_calls st;
              content_parts := content_parts st ++ [content];
              calling_console := calling_console st |},
           Some (MarkupError message))
      | None => (function_calling_streaming_demo_body d st, None)
      end
  | None => (function_calling_streaming_demo_body d st, None)
  end.

(** [f"Function: {func_call['name']}\nArguments: {func_call['arguments']}"] *)
Definition panel_text (c : func_call) : str :=
  lit "Function: " ++ name c ++ [10%N] ++ lit "Arguments: " ++ arguments c.

(** [for func_call in function_calls: console.print(Panel(...))] *)
Fixpoint print_panels (markup_error : str -> option str) (calls : list func_call)
    (console : list printed) : list printed * option exception :=
  match calls with
  | [] => (console, None)
  | c :: calls' =>
      match console_print markup_error (panel_text c)
              (FunctionCallPanel (name c) (arguments c)) console with
      | (console, None) => print_panels markup_error calls' console
      | (console, Some e) => (console, Some e)
      end
  end.

(** [f"[red]Error during function calling: {e}[/red]"] *)
Definition calling_error_text (e : exception) : str :=
  lit "[red]Error during function calling: " ++ str_of e ++ lit "[/red]".

Definition function_calling_streaming_demo (markup_error : str -> option str)
    (create : exception + AsyncStream) : list printed * outcome :=
  let st := calling_entry in
  let '(console, raised) :=
    match create with
    | inl e => (calling_console st, Some e)
    | inr stream =>
        match async_for_raising (function_calling_streaming_demo_step markup_error)
                stream st with
        | (st, None) =>
            print_panels markup_error (function_calls st)
              (calling_console st ++ [FunctionCallsDetected])
        | (st, Some e) => (calling_console st, Some e)
        end
    end in
  except_Exception markup_error calling_error_text ErrorMessage console raised.

(** *** real_time_processing_demo *)

Record stats_locals := {
  word_count : Z;
  sentence_count : Z;
  current_sentence : str;
  live : list printed
}.

(** The update of [sentence_count] for one [content]. *)
Definition count_sentences (content : str) (sentence_count : Z) : Z :=
  if existsb (fun punct => contains punct content) (lit ".!?")
  then sentence_count
       + (count (ord ".") content + count (ord "!") content + count (ord "?") content)
  else sentence_count.

(** The body ends with [await asyncio.sleep(0.01)], after the display is
    updated; it changes no variable. *)
Definition real_time_processing_demo_body (d : ChoiceDelta) (st : stats_locals)
  : stats_locals :=
  match content d with
  | Some content =>
      let current_sentence := current_sentence st ++ content in
      let word_count := (word_count st + len (split content))%Z in
      let sentence_count := count_sentences content (sentence_count st) in
      {| word_count := word_count;
         sentence_count := sentence_count;
         current_sentence := current_sentence;
         live := live st ++
                 [LiveUpdate word_count sentence_count (len current_sentence)
                             current_sentence] |}
  | None => st
  end.

Definition stats_entry : stats_locals :=
  {| word_count := 0; sentence_count := 0; current_sentence := []; live := [Title] |}.

(** [real_time_processing_demo()], as far as its loop goes: [live] lists
    the updates the loop hands to the table and the layout, one per
    content. What [Live] draws of them on its own thread, and what its last
    drawing raises on a text the console rejects, belongs to the library
    and is left out. *)
Definition real_time_processing_demo (create : exception + AsyncStream)
  : list printed * outcome :=
  let st := stats_entry in
  let '(st, raised) :=
    match create with
    | inl e => (st, Some e)
    | inr stream => async_for real_time_processing_demo_body stream st
    end in
  match raised with
  | None => (live st, Returned)
  | Some e =>
      if isinstance_Exception e
      then (live st ++ [ErrorMessage e], Returned)
      else (live st, Propagated e)
  end.

End StreamingDemo.

(** ** Streams and fragments used in the statements *)

(** A chunk with one choice carrying [d]. *)
Definition chunk_of (d : ChoiceDelta) : ChatCompletionChunk :=
  {| choices := [{| delta := d |}] |}.

(** The stream that yields [chunks] in order and then goes on as [rest]. *)
Fixpoint yields (chunks : list ChatCompletionChunk) (rest : AsyncStream) : AsyncStream :=
  match chunks with
  | [] => rest
  | chunk :: chunks' => Yield chunk (yields chunks' rest)
  end.

(** The three kinds of fragment a delta can carry. *)
Definition content_fragment (text : str) : ChoiceDelta :=
  {| content := Some text; function_call := None |}.

Definition function_call_start (name : str) : ChoiceDelta :=
  {| content := None;
     function_call := Some {| openai.name := Some name; openai.arguments := None |} |}.

Definition function_call_args_delta (text : str) : ChoiceDelta :=
  {| content := None;
     function_call := Some {| openai.name := None; openai.arguments := Some text |} |}.

(** The content texts of a sequence of deltas, in order. *)
Definition texts (ds : list ChoiceDelta) : list str := omap content ds.

(** The loop body applied to each delta in turn. *)
Definition run {S : Type} (body : ChoiceDelta -> S -> S) (ds : list ChoiceDelta) (st : S) : S :=
  fold_left (fun st d => body d st) ds st.

(** A delta starts a function call when its [function_call] has a non-empty
    name: the test of the first branch of the function-calling loop. *)
Definition is_start (d : ChoiceDelta) : bool :=
  match function_call d with
  | Some fc => truthy (openai.name fc)
  | None => false
  end.

(** The name a start carries. *)
Definition start_name (d : ChoiceDelta) : str :=
  match function_call d with
  | Some fc => default [] (openai.name fc)
  | None => []
  end.

(** The arguments text a delta carries, empty when it carries none. *)
Definition args_text (d : ChoiceDelta) : str :=
  match function_call d with
  | Some fc => or_empty (openai.arguments fc)
  | None => []
  end.

(** Number of starts in a sequence. *)
Definition count_starts (ds : list ChoiceDelta) : nat :=
  length (List.filter is_start ds).

(** The arguments texts of the deltas before the first start of [ds],
    concatenated. *)
Fixpoint args_before_next_start (ds : list ChoiceDelta) : str :=
  match ds with
  | [] => []
  | d :: ds' => if is_start d then [] else args_text d ++ args_before_next_start ds'
  end.

(** Reference for the recorded calls: one record per start, whose arguments
    are the text the start carries followed by the texts that arrive before
    the next start. *)
Fixpoint calls_recorded (ds : list ChoiceDelta) : list StreamingDemo.func_call :=
  match ds with
  | [] => []
  | d :: ds' =>
      if is_start d
      then {| StreamingDemo.name := start_name d;
              StreamingDemo.arguments := args_text d ++ args_before_next_start ds' |}
           :: calls_recorded ds'
      else calls_recorded ds'
  end.

(** [rest] is empty or begins with a start. *)
Definition ends_or_starts (rest : list ChoiceDelta) : bool :=
  match rest with
  | [] => true
  | d :: _ => is_start d
  end.

(** The two fragments of a streamed function call: its start, which
    carries the name, and a piece of its arguments. *)
Inductive call_fragment :=
| FunctionCallStart (name : str)
| FunctionCallArgsDelta (text : str).

Definition delta_of (f : call_fragment) : ChoiceDelta :=
  match f with
  | FunctionCallStart name => function_call_start name
  | FunctionCallArgsDelta text => function_call_args_delta text
  end.

Definition is_start_fragment (f : call_fragment) : bool :=
  match f with
  | FunctionCallStart _ => true
  | FunctionCallArgsDelta _ => false
  end.

(** A start names its function: the name is not empty. *)
Definition named (f : call_fragment) : bool :=
  match f with
  | FunctionCallStart [] => false
  | _ => true
  end.

(** [rest] is empty or begins with a start. *)
Definition ends_or_begins_with_start (rest : list call_fragment) : bool :=
  match rest with
  | [] => true
  | f :: _ => is_start_fragment f
  end.

(** The deltas whose body the loop of [basic_streaming_demo] enters: those
    of the chunks read, up to and including the first whose content the
    console does not accept. *)
Fixpoint entered (markup_error : str -> option str) (stream : AsyncStream)
  : list ChoiceDelta :=
  match stream with
  | StopAsyncIteration => []
  | Raise _ => []
  | Yield chunk rest =>
      match choices_0_delta chunk with
      | inl _ => []
      | inr d =>
          match content d with
          | Some content =>
              match markup_error content with
              | Some _ => [d]
              | None => d :: entered markup_error rest
              end
          | None => d :: entered markup_error rest
          end
      end
  end.

(** The sentence-count update without the guard: always add the three
    counts. *)
Definition count_sentences_unconditional (content : str) (sentence_count : Z) : Z :=
  (sentence_count + (count (ord ".") content + count (ord "!") content + count (ord "?") content))%Z.

(** Number of positions of [s] where a word begins: a non-whitespace code
    point that is first or follows whitespace. [after_space] tells whether
    the previous code point was whitespace (or there was none). *)
Fixpoint word_starts (after_space : bool) (s : str) : nat :=
  match s with
  | [] => 0
  | c :: s' =>
      if isspace c then word_starts true s'
      else (if after_space then 1 else 0) + word_starts false s'
  end.

(** ** Concrete streams *)

Definition roses_are : list ChoiceDelta :=
  [content_fragment (lit "Roses "); content_fragment (lit "are")].

Definition connection_reset : exception := APIError (lit "connection reset").

(** Two content fragments, then a transport fault. *)
Definition two_fragments_then_fault : AsyncStream :=
  yields (map chunk_of roses_are) (Raise connection_reset).


(** The double quote, and the two halves of the arguments [{"loc":"NYC"}]
    as they arrive. *)
Definition dquote : codepoint := 34%N.
Definition loc_key : str := lit "{" ++ dquote :: lit "loc" ++ dquote :: lit ":".
Definition nyc_value : str := dquote :: lit "NYC" ++ dquote :: lit "}".

(** A start, then the arguments in two deltas. *)
Definition get_weather_call : list ChoiceDelta :=
  [function_call_start (lit "get_weather");
   function_call_args_delta loc_key;
   function_call_args_delta nyc_value].

(** A start that carries the beginning of the arguments itself. *)
Definition get_weather_start_with_arguments : ChoiceDelta :=
  {| content := None;
     function_call := Some {| openai.name := Some (lit "get_weather");
                              openai.arguments := Some loc_key |} |}.

Definition hello_world : list ChoiceDelta :=
  map content_fragment [lit "Hello "; lit "world"; lit "!"].

(** ** The rest of the two files *)

(** *** What a stream amounts to for a loop that reads [choices[0]] *)

(** The deltas such a loop gets to process: those of the chunks before the
    stream stops, raises, or yields a chunk without choices. *)
Fixpoint consumed (stream : AsyncStream) : list ChoiceDelta :=
  match stream with
  | StopAsyncIteration => []
  | Raise _ => []
  | Yield chunk rest =>
      match choices_0_delta chunk with
      | inl _ => []
      | inr d => d :: consumed rest
      end
  end.

(** How such a loop ends: [None] when the stream is exhausted. *)
Fixpoint ending (stream : AsyncStream) : option exception :=
  match stream with
  | StopAsyncIteration => None
  | Raise e => Some e
  | Yield chunk rest =>
      match choices_0_delta chunk with
      | inl e => Some e
      | inr _ => ending rest
      end
  end.

(** What a demo prints once its loop is over, and how it ends: [summary]
    after a normal end, the error after an [Exception], nothing when
    another exception passes through. *)
Definition closing {A : Type} (raised : option exception) (summary : list A)
    (error : exception -> A) : list A * outcome :=
  match raised with
  | None => (summary, Returned)
  | Some e =>
      if isinstance_Exception e then ([error e], Returned) else ([], Propagated e)
  end.

(** *** Reference for the live statistics *)

(** Tokens of each text split on its own, added up. *)
Fixpoint words_counted (ts : list str) : Z :=
  match ts with
  | [] => 0
  | t :: ts' => len (split t) + words_counted ts'
  end.

(** Number of '.', '!' and '?' in a text. *)
Definition terminators (s : str) : Z :=
  (count (ord ".") s + count (ord "!") s + count (ord "?") s)%Z.

(** *** What the other functions write *)

(** Lines of the functions below, beside those of [printed]. *)
Inductive event :=
| Print (p : printed)
| StreamingComplete
| Prompt
| AIPrefix
| Goodbye
| DemoNumber (i total : nat)
| Separator
| AllDemosCompleted
| HandledBadRequestError (e : exception)
| AuthenticationErrorLine (e : exception)
| RateLimitErrorLine (e : exception)
| UnexpectedError (e : exception)
| NoErrorsOccurred
| AIResponseHeading.

(** A line of [streaming_with_collection] as [simple_streaming] prints it:
    its own heading for the other's heading, and, where the first shows
    the complete response, only the remark that streaming is complete. *)
Definition as_simple_streaming (p : printed) : event :=
  match p with
  | Title => AIResponseHeading
  | CompleteResponse _ => StreamingComplete
  | _ => Print p
  end.

(** The panel shown for a recorded call. *)
Definition panel_of (c : StreamingDemo.func_call) : printed :=
  FunctionCallPanel (StreamingDemo.name c) (StreamingDemo.arguments c).

(** *** simple_example.py: simple_streaming, interactive_streaming *)

Module simple_example_rest.

(** Body of the loop of [simple_streaming]: the content is printed, nothing
    is kept. *)
Definition simple_streaming_body (d : ChoiceDelta) (out : list event) : list event :=
  match content d with
  | Some content => out ++ [Print (Content content)]
  | None => out
  end.

Definition simple_streaming (create : exception + AsyncStream) : list event * outcome :=
  let out := [AIResponseHeading] in
  let '(out, raised) :=
    match create with
    | inl e => (out, Some e)
    | inr stream =>
        match async_for simple_streaming_body stream out with
        | (out, None) => (out ++ [StreamingComplete], None)
        | (out, Some e) => (out, Some e)
        end
    end in
  match raised with
  | None => (out, Returned)
  | Some e =>
      if isinstance_Exception e
      then (out ++ [Print (ErrorMessage e)], Returned)
      else (out, Propagated e)
  end.

(** One element of [conversation_history]: the dict
    [{"role": ..., "content": ...}]. *)
Inductive role_name := user | assistant.

Record message := {
  role : role_name;
  content : str
}.

(** ['quit', 'exit', 'bye'] *)
Definition quit_words : list str := [lit "quit"; lit "exit"; lit "bye"].

(** The variables of one turn: the reply being collected and the terminal. *)
Record turn_locals := {
  response_content : str;
  shown : list event
}.

Definition interactive_streaming_body (d : ChoiceDelta) (st : turn_locals) : turn_locals :=
  match openai.content d with
  | Some content =>
      {| response_content := response_content st ++ content;
         shown := shown st ++ [Print (Content content)] |}
  | None => st
  end.

(** How [interactive_streaming] is left: by [break] after a quit word, by
    the [EOFError] of [input()] when nothing is left to read, or by an
    exception of a turn that is not an [Exception]. *)
Inductive session_end :=
| Quit
| EOFError
| Interrupt (e : exception).

Section Interactive.

(** [str.lower], and the client: the [n]-th call of
    [chat.completions.create] with the messages sent. *)
Variable lower : str -> str.
Variable create : nat -> list message -> exception + AsyncStream.

(** The [while True] loop of [interactive_streaming]. [stdin] holds the
    lines [input()] will return, [n] counts the requests made so far. The
    result is the history and the terminal when the function is left. *)
Fixpoint interactive_loop (stdin : list str) (n : nat)
    (conversation_history : list message) (out : list event)
  : list message * list event * session_end :=
  match stdin with
  | [] => (conversation_history, out ++ [Prompt], EOFError)
  | user_input :: stdin' =>
      let out := out ++ [Prompt] in
      if bool_decide (lower user_input ∈ quit_words)
      then (conversation_history, out ++ [Goodbye], Quit)
      else
        let conversation_history :=
          conversation_history ++ [{| role := user; content := user_input |}] in
        let out := out ++ [AIPrefix] in
        match create n conversation_history with
        | inl e =>
            if isinstance_Exception e
            then interactive_loop stdin' (S n) conversation_history
                   (out ++ [Print (ErrorMessage e)])
            else (conversation_history, out, Interrupt e)
        | inr stream =>
            match async_for interactive_streaming_body stream
                    {| response_content := []; shown := out |} with
            | (st, None) =>
                interactive_loop stdin' (S n)
                  (conversation_history
                   ++ [{| role := assistant; content := response_content st |}])
                  (shown st)
            | (st, Some e) =>
                if isinstance_Exception e
                then interactive_loop stdin' (S n) conversation_history
                       (shown st ++ [Print (ErrorMessage e)])
                else (conversation_history, shown st, Interrupt e)
            end
        end
  end.

Definition interactive_streaming (stdin : list str)
  : list message * list event * session_end :=
  interactive_loop stdin 0 [] [Print Title].

End Interactive.

End simple_example_rest.

(** *** main.py: error_handling_demo, the loop of run_all_demos *)

Module StreamingDemo_rest.

(** [async for chunk in stream: pass]: the chunks are not looked at. *)
Fixpoint drain (stream : AsyncStream) : option exception :=
  match stream with
  | StopAsyncIteration => None
  | Raise e => Some e
  | Yield _ rest => drain rest
  end.

Section ErrorHandling.

(** The console's markup check, and [isinstance] for the three classes of
    the client that the demo names. *)
Variable markup_error : str -> option str.
Variable isinstance_BadRequestError : exception -> bool.
Variable isinstance_AuthenticationError : exception -> bool.
Variable isinstance_RateLimitError : exception -> bool.

(** The texts of the four handlers. *)
Definition bad_request_text (e : exception) : str :=
  lit "[yellow]Handled BadRequestError: " ++ str_of e ++ lit "[/yellow]".

Definition authentication_text (e : exception) : str :=
  lit "[red]Authentication Error: " ++ str_of e ++ lit "[/red]".

Definition rate_limit_text (e : exception) : str :=
  lit "[yellow]Rate Limit Error: " ++ str_of e ++ lit "[/yellow]".

Definition unexpected_text (e : exception) : str :=
  lit "[red]Unexpected Error: " ++ str_of e ++ lit "[/red]".

(** A handler: its message is printed through the console, whose own
    error then leaves the demo. *)
Definition handle (text : str) (line : event) (out : list event) : list event * outcome :=
  match console_print markup_error text line out with
  | (out, None) => (out, Returned)
  | (out, Some e) => (out, Propagated e)
  end.

Definition error_handling_demo (create : exception + AsyncStream) : list event * outcome :=
  let out := [Print Title] in
  let raised :=
    match create with
    | inl e => Some e
    | inr stream => drain stream
    end in
  match raised with
  | Some e =>
      if isinstance_BadRequestError e
      then handle (bad_request_text e) (HandledBadRequestError e) out
      else if isinstance_AuthenticationError e
      then handle (authentication_text e) (AuthenticationErrorLine e) out
      else if isinstance_RateLimitError e
      then handle (rate_limit_text e) (RateLimitErrorLine e) out
      else if isinstance_Exception e
      then handle (unexpected_text e) (UnexpectedError e) out
      else (out, Propagated e)
  | None => (out ++ [NoErrorsOccurred], Returned)
  end.

(** The loop of [run_all_demos] over [demos], each given by what awaiting
    it prints and how it ends; [i] is the number of the next demo. *)
Fixpoint run_demos (i total : nat) (demos : list (list event * outcome)) (out : list event)
  : list event * outcome :=
  match demos with
  | [] => (out ++ [AllDemosCompleted], Returned)
  | (printed_by_demo, ended) :: demos' =>
      let out := out ++ [DemoNumber i total] ++ printed_by_demo in
      match ended with
      | Returned => run_demos (S i) total demos' (out ++ [Separator])
      | Propagated e => (out, Propagated e)
      end
  end.

End ErrorHandling.

End StreamingDemo_rest.

(** *** Reference for the interactive session *)

(** The lines typed before the first quit word. *)
Fixpoint typed_before_quit (lower : str -> str) (stdin : list str) : list str :=
  match stdin with
  | [] => []
  | user_input :: stdin' =>
      if bool_decide (lower user_input ∈ simple_example_rest.quit_words) then []
      else user_input :: typed_before_quit lower stdin'
  end.

(** The texts of the user's messages in a history, in order. *)
Fixpoint user_texts (history : list simple_example_rest.message) : list str :=
  match history with
  | [] => []
  | m :: history' =>
      match simple_example_rest.role m with
      | simple_example_rest.user => simple_example_rest.content m :: user_texts history'
      | simple_example_rest.assistant => user_texts history'
      end
  end.

(** Every assistant message comes directly after a user message.
    [after_user] tells whether the message before the list is the user's. *)
Fixpoint replies_follow_requests (after_user : bool)
    (history : list simple_example_rest.message) : bool :=
  match history with
  | [] => true
  | m :: history' =>
      match simple_example_rest.role m with
      | simple_example_rest.user => replies_follow_requests true history'
      | simple_example_rest.assistant =>
          after_user && replies_follow_requests false history'
      end
  end.

(** The message of the user, and of the assistant. *)
Definition user_says (text : str) : simple_example_rest.message :=
  {| simple_example_rest.role := simple_example_rest.user;
     simple_example_rest.content := text |}.

Definition assistant_says (text : str) : simple_example_rest.message :=
  {| simple_example_rest.role := simple_example_rest.assistant;
     simple_example_rest.content := text |}.

(** *** Reference for the run of all demos *)

(** The exception [error_handling_demo] meets, if any. *)
Definition raised_unread (create : exception + AsyncStream) : option exception :=
  match create with
  | inl e => Some e
  | inr stream => StreamingDemo_rest.drain stream
  end.

(** What the loop of [run_all_demos] prints for demos that all return:
    number, output, separator, for each in turn. *)
Fixpoint rendered (i total : nat) (demos : list (list event * outcome)) : list event :=
  match demos with
  | [] => []
  | d :: demos' => DemoNumber i total :: fst d ++ Separator :: rendered (S i) total demos'
  end.

(** *** Concrete inputs for the rest *)

(** [str.lower] on ASCII letters; other code points are left alone. *)
Definition ascii_lower (s : str) : str :=
  map (fun c => if ((65 <=? c) && (c <=? 90))%N then (c + 32)%N else c) s.

(** A client that answers every request with "Hi" in one chunk. *)
Definition says_hi (n : nat) (messages : list simple_example_rest.message)
  : exception + AsyncStream :=
  inr (yields (map chunk_of [content_fragment (lit "Hi")]) StopAsyncIteration).

(** A client whose every request fails. *)
Definition always_fails (n : nat) (messages : list simple_example_rest.message)
  : exception + AsyncStream :=
  inl connection_reset.

(** A console that accepts every text: what the console does on the texts
    of the examples that use it, whose tags are all closed by their own
    closing tags. *)
Definition accepts_every_text (text : str) : option str := None.

(** A console that rejects the text [bad] and accepts every other. *)
Definition rejects (bad : str) (text : str) : option str :=
  if bool_decide (text = bad) then Some (lit "closing tag has nothing to close")
  else None.

(** The class tests, on a client whose errors name their class in the
    message. *)
Definition is_bad_request (e : exception) : bool :=
  match e with
  | APIError message => bool_decide (message = lit "BadRequestError")
  | _ => false
  end.

Definition is_authentication (e : exception) : bool :=
  match e with
  | APIError message => bool_decide (message = lit "AuthenticationError")
  | _ => false
  end.

Definition is_rate_limit (e : exception) : bool :=
  match e with
  | APIError message => bool_decide (message = lit "RateLimitError")
  | _ => false
  end.

(** * Lemmas *)

(** ** The loop *)

Section AsyncForFacts.
Context {S : Type} (body : ChoiceDelta -> S -> S).

Lemma run_app ds1 ds2 (st : S) :
  run body (ds1 ++ ds2) st = run body ds2 (run body ds1 st).
Proof. unfold run. apply fold_left_app. Qed.

(** Well-formed chunks are consumed one by one; the loop then continues
    with what follows, from the state they have built. *)
Lemma async_for_yields ds rest (st : S) :
  async_for body (yields (map chunk_of ds) rest) st
  = async_for body rest (run body ds st).
Proof.
  revert st. induction ds as [|d ds IH]; intros st; simpl; [reflexivity|].
  apply IH.
Qed.

Lemma async_for_exhausted ds (st : S) :
  async_for body (yields (map chunk_of ds) StopAsyncIteration) st
  = (run body ds st, None).
Proof. rewrite async_for_yields. reflexivity. Qed.

Lemma async_for_raised ds e (st : S) :
  async_for body (yields (map chunk_of ds) (Raise e)) st
  = (run body ds st, Some e).
Proof. rewrite async_for_yields. reflexivity. Qed.

(** A property kept by the body is kept by the whole loop, however the
    stream ends. *)
Lemma async_for_invariant (P : S -> Prop) :
  (forall d st, P st -> P (body d st)) ->
  forall stream st, P st -> P (fst (async_for body stream st)).
Proof.
  intros Hbody stream.
  induction stream as [| e | chunk rest IH]; intros st Hst; simpl; auto.
  destruct (choices_0_delta chunk); simpl; auto.
Qed.
End AsyncForFacts.

(** ** Collecting the full response *)

Lemma texts_app ds1 ds2 : texts (ds1 ++ ds2) = texts ds1 ++ texts ds2.
Proof. unfold texts. apply omap_app. Qed.

Lemma run_streaming_with_collection ds st :
  run simple_example.streaming_with_collection_body ds st
  = {| simple_example.full_response :=
         simple_example.full_response st ++ concat (texts ds);
       simple_example.stdout :=
         simple_example.stdout st ++ map Content (texts ds) |}.
Proof.
  revert st. induction ds as [|d ds IH]; intros [fr out]; simpl.
  - rewrite !app_nil_r. reflexivity.
  - unfold run in IH |- *. simpl. rewrite IH.
    unfold simple_example.streaming_with_collection_body, texts. simpl.
    destruct (content d) as [text|]; simpl; [|reflexivity].
    rewrite <- !app_assoc. reflexivity.
Qed.

(** The loop of [basic_streaming_demo] over contents the console accepts. *)
Lemma basic_loop_accepted markup_error ds rest st :
  Forall (fun t => markup_error t = None) (texts ds) ->
  async_for_raising (StreamingDemo.basic_streaming_demo_body markup_error)
    (yields (map chunk_of ds) rest) st
  = async_for_raising (StreamingDemo.basic_streaming_demo_body markup_error) rest
      {| StreamingDemo.full_response :=
           StreamingDemo.full_response st ++ concat (texts ds);
         StreamingDemo.console :=
           StreamingDemo.console st ++ map Content (texts ds) |}.
Proof.
  revert st. induction ds as [|d ds IH]; intros [fr out] Hts.
  - simpl. rewrite !app_nil_r. reflexivity.
  - simpl. unfold StreamingDemo.basic_streaming_demo_body at 1. unfold texts in *.
    simpl in *. destruct (content d) as [t|]; simpl in *.
    + inversion Hts as [|t' ts' Ht Hts']; subst.
      unfold console_print. rewrite Ht. rewrite IH by assumption. simpl.
      rewrite <- !app_assoc. reflexivity.
    + apply IH. exact Hts.
Qed.

(** Where that loop stops, on any stream. *)
Lemma basic_loop_any_accepted markup_error stream st :
  Forall (fun t => markup_error t = None) (texts (consumed stream)) ->
  async_for_raising (StreamingDemo.basic_streaming_demo_body markup_error) stream st
  = ({| StreamingDemo.full_response :=
          StreamingDemo.full_response st ++ concat (texts (consumed stream));
        StreamingDemo.console :=
          StreamingDemo.console st ++ map Content (texts (consumed stream)) |},
     ending stream).
Proof.
  revert st. induction stream as [| e | chunk rest IH]; intros [fr out] Hts; simpl.
  - rewrite !app_nil_r. reflexivity.
  - rewrite !app_nil_r. reflexivity.
  - simpl in Hts. destruct (choices_0_delta chunk) as [e|d]; simpl.
    + rewrite !app_nil_r. reflexivity.
    + unfold StreamingDemo.basic_streaming_demo_body at 1. unfold texts in *.
      simpl in *. destruct (content d) as [t|]; simpl in *.
      * inversion Hts as [|t' ts' Ht Hts']; subst.
        unfold console_print. rewrite Ht. rewrite IH by assumption. simpl.
        rewrite <- !app_assoc. reflexivity.
      * apply IH. exact Hts.
Qed.

(** What [full_response] holds where that loop stops, whatever the console
    accepts. *)
Lemma basic_loop_entered markup_error stream st :
  StreamingDemo.full_response
    (fst (async_for_raising (StreamingDemo.basic_streaming_demo_body markup_error)
            stream st))
  = StreamingDemo.full_response st ++ concat (texts (entered markup_error stream)).
Proof.
  revert st. induction stream as [| e | chunk rest IH]; intros st; simpl;
    try (rewrite app_nil_r; reflexivity).
  destruct (choices_0_delta chunk) as [e|d]; simpl; [rewrite app_nil_r; reflexivity|].
  unfold StreamingDemo.basic_streaming_demo_body at 1. unfold console_print.
  destruct (content d) as [t|] eqn:Hd.
  - destruct (markup_error t) as [message|]; simpl.
    + unfold texts. simpl. rewrite Hd. simpl. rewrite app_nil_r. reflexivity.
    + rewrite IH. simpl. unfold texts. simpl. rewrite Hd. simpl.
      rewrite <- app_assoc. reflexivity.
  - rewrite IH. unfold texts. simpl. rewrite Hd. reflexivity.
Qed.

Lemma texts_content_fragments ts : texts (map content_fragment ts) = ts.
Proof. induction ts as [|t ts IH]; simpl; [reflexivity|]. unfold texts in *. simpl. by rewrite IH. Qed.

(** C1. Whatever deltas have been consumed so far and whatever follows
    them, both collecting loops ([streaming_with_collection] and
    [basic_streaming_demo]) hold at that point a [full_response] equal to
    the concatenation, in arrival order, of the content texts consumed so
    far, each already echoed; when the stream ends there, that
    concatenation is the complete response shown. For a sequence of content
    fragments the texts consumed are the fragments' texts. In
    [basic_streaming_demo] a content is added before it is printed: the
    loop goes on as long as the console accepts what it prints, and
    wherever it stops [full_response] is the concatenation of the contents
    of the chunks whose body was entered. *)
Theorem full_response_is_concatenation (markup_error : str -> option str)
    (ds : list ChoiceDelta) (rest : AsyncStream) :
  async_for simple_example.streaming_with_collection_body
    (yields (map chunk_of ds) rest)
    simple_example.entry
  = async_for simple_example.streaming_with_collection_body rest
      {| simple_example.full_response := concat (texts ds);
         simple_example.stdout := Title :: map Content (texts ds) |}
  /\ (Forall (fun t => markup_error t = None) (texts ds) ->
      async_for_raising (StreamingDemo.basic_streaming_demo_body markup_error)
        (yields (map chunk_of ds) rest)
        StreamingDemo.basic_entry
      = async_for_raising (StreamingDemo.basic_streaming_demo_body markup_error) rest
          {| StreamingDemo.full_response := concat (texts ds);
             StreamingDemo.console := Title :: map Content (texts ds) |})
  /\ simple_example.streaming_with_collection
       (inr (yields (map chunk_of ds) StopAsyncIteration))
     = (Title :: map Content (texts ds) ++ [CompleteResponse (concat (texts ds))],
        Returned)
  /\ (Forall (fun t => markup_error t = None) (texts ds) ->
      markup_error (concat (texts ds)) = None ->
      StreamingDemo.basic_streaming_demo markup_error
        (inr (yields (map chunk_of ds) StopAsyncIteration))
      = (Title :: map Content (texts ds)
           ++ [FullResponseCollected; CompleteResponse (concat (texts ds))],
         Returned))
  /\ (forall ts : list str, texts (map content_fragment ts) = ts)
  /\ (forall stream : AsyncStream,
       StreamingDemo.full_response
         (fst (async_for_raising (StreamingDemo.basic_streaming_demo_body markup_error)
                 stream StreamingDemo.basic_entry))
       = concat (texts (entered markup_error stream))).
Proof.
  repeat split.
  - rewrite async_for_yields, run_streaming_with_collection. reflexivity.
  - intros Hts. rewrite basic_loop_accepted by exact Hts. reflexivity.
  - unfold simple_example.streaming_with_collection.
    rewrite async_for_exhausted, run_streaming_with_collection. reflexivity.
  - intros Hts Hall. unfold StreamingDemo.basic_streaming_demo.
    rewrite basic_loop_accepted by exact Hts. simpl.
    unfold console_print. rewrite Hall. simpl. rewrite <- app_assoc. reflexivity.
  - apply texts_content_fragments.
  - intros stream. rewrite basic_loop_entered. reflexivity.
Qed.

Lemma full_response_is_concatenation_witness :
  (Forall (fun t => accepts_every_text t = None) (texts hello_world)
   /\ accepts_every_text (concat (texts hello_world)) = None)
  /\ StreamingDemo.basic_streaming_demo accepts_every_text
       (inr (yields (map chunk_of hello_world) StopAsyncIteration))
     = ([Title; Content (lit "Hello "); Content (lit "world"); Content (lit "!");
         FullResponseCollected; CompleteResponse (lit "Hello world!")], Returned).
Proof.
  split; [split; [repeat constructor | reflexivity]|].
  destruct (full_response_is_concatenation accepts_every_text hello_world
              StopAsyncIteration) as (_ & _ & _ & Hdemo & _).
  apply Hdemo; [repeat constructor | reflexivity].
Defined.

Example full_response_hello_world :
  simple_example.streaming_with_collection
    (inr (yields (map chunk_of hello_world) StopAsyncIteration))
  = ([Title; Content (lit "Hello "); Content (lit "world"); Content (lit "!");
      CompleteResponse (lit "Hello world!")], Returned).
Proof. reflexivity. Qed.

(** ** A source that fails or is interrupted *)

Lemma async_for_no_choices {S : Type} (body : ChoiceDelta -> S -> S) ds rest (st : S) :
  async_for body (yields (map chunk_of ds) (Yield {| choices := [] |} rest)) st
  = (run body ds st, Some IndexError).
Proof. rewrite async_for_yields. reflexivity. Qed.

(** C6, as the code has it. When the source raises an [Exception] after
    some deltas, each collecting loop stops there with [full_response] equal
    to the concatenation of exactly the content texts consumed before the
    fault, each already echoed. The demo then prints the error and returns
    normally: nothing is raised to the caller, and the text collected so far
    is neither handed over nor shown as a complete response. A chunk without
    choices ends the loop the same way, with [IndexError]. In
    [basic_streaming_demo] this is so when the console accepts the echoed
    texts and the message; when it rejects the message, its [MarkupError]
    leaves the demo, which has printed nothing after the echoes. *)
Theorem source_fault_is_reported_only (markup_error : str -> option str)
    (ds : list ChoiceDelta) (e : exception) :
  isinstance_Exception e = true ->
  async_for simple_example.streaming_with_collection_body
    (yields (map chunk_of ds) (Raise e))
    simple_example.entry
  = ({| simple_example.full_response := concat (texts ds);
        simple_example.stdout := Title :: map Content (texts ds) |}, Some e)
  /\ simple_example.streaming_with_collection (inr (yields (map chunk_of ds) (Raise e)))
     = (Title :: map Content (texts ds) ++ [ErrorMessage e], Returned)
  /\ (Forall (fun t => markup_error t = None) (texts ds) ->
      markup_error (StreamingDemo.streaming_error_text e) = None ->
      StreamingDemo.basic_streaming_demo markup_error
        (inr (yields (map chunk_of ds) (Raise e)))
      = (Title :: map Content (texts ds) ++ [ErrorMessage e], Returned))
  /\ (forall rest,
       simple_example.streaming_with_collection
         (inr (yields (map chunk_of ds) (Yield {| choices := [] |} rest)))
       = (Title :: map Content (texts ds) ++ [ErrorMessage IndexError], Returned))
  /\ (Forall (fun t => markup_error t = None) (texts ds) ->
      forall message,
        markup_error (StreamingDemo.streaming_error_text e) = Some message ->
        StreamingDemo.basic_streaming_demo markup_error
          (inr (yields (map chunk_of ds) (Raise e)))
        = (Title :: map Content (texts ds), Propagated (MarkupError message))).
Proof.
  intros He. repeat split.
  - rewrite async_for_raised, run_streaming_with_collection. reflexivity.
  - unfold simple_example.streaming_with_collection.
    rewrite async_for_raised, run_streaming_with_collection. simpl.
    rewrite He. reflexivity.
  - intros Hts Herr. unfold StreamingDemo.basic_streaming_demo.
    rewrite basic_loop_accepted by exact Hts. simpl.
    unfold except_Exception, console_print. rewrite He, Herr. reflexivity.
  - intros rest. unfold simple_example.streaming_with_collection.
    rewrite async_for_no_choices, run_streaming_with_collection. reflexivity.
  - intros Hts message Herr. unfold StreamingDemo.basic_streaming_demo.
    rewrite basic_loop_accepted by exact Hts. simpl.
    unfold except_Exception, console_print. rewrite He, Herr. reflexivity.
Qed.

Lemma source_fault_is_reported_only_witness :
  (isinstance_Exception connection_reset = true
   /\ Forall (fun t => accepts_every_text t = None) (texts roses_are)
   /\ accepts_every_text (StreamingDemo.streaming_error_text connection_reset) = None
   /\ Forall (fun t => rejects (StreamingDemo.streaming_error_text connection_reset) t
                       = None) (texts roses_are)
   /\ rejects (StreamingDemo.streaming_error_text connection_reset)
              (StreamingDemo.streaming_error_text connection_reset)
      = Some (lit "closing tag has nothing to close"))
  /\ simple_example.streaming_with_collection (inr two_fragments_then_fault)
     = ([Title; Content (lit "Roses "); Content (lit "are");
         ErrorMessage connection_reset], Returned)
  /\ StreamingDemo.basic_streaming_demo accepts_every_text (inr two_fragments_then_fault)
     = ([Title; Content (lit "Roses "); Content (lit "are");
         ErrorMessage connection_reset], Returned)
  /\ StreamingDemo.basic_streaming_demo
       (rejects (StreamingDemo.streaming_error_text connection_reset))
       (inr two_fragments_then_fault)
     = ([Title; Content (lit "Roses "); Content (lit "are")],
        Propagated (MarkupError (lit "closing tag has nothing to close"))).
Proof.
  assert (Haccepted : Forall (fun t => accepts_every_text t = None) (texts roses_are))
    by (repeat constructor).
  assert (Hechoed : Forall (fun t => rejects (StreamingDemo.streaming_error_text
                                               connection_reset) t = None)
                           (texts roses_are))
    by (repeat constructor).
  split; [repeat split; assumption|].
  destruct (source_fault_is_reported_only accepts_every_text roses_are connection_reset
              eq_refl) as (_ & Hsimple & Hbasic & _).
  destruct (source_fault_is_reported_only
              (rejects (StreamingDemo.streaming_error_text connection_reset))
              roses_are connection_reset eq_refl) as (_ & _ & _ & _ & Hrejected).
  split; [exact Hsimple|]. split.
  - apply Hbasic; [exact Haccepted | reflexivity].
  - apply (Hrejected Hechoed). reflexivity.
Defined.

(** C6 as worded fails: after two content fragments and a transport fault
    [streaming_with_collection] does not fail; it returns normally, and
    what it prints after the fault is the error alone. *)
Lemma source_fault_does_not_fail :
  ~ (exists e, snd (simple_example.streaming_with_collection
                      (inr two_fragments_then_fault)) = Propagated e)
  /\ last (fst (simple_example.streaming_with_collection (inr two_fragments_then_fault)))
     = Some (ErrorMessage connection_reset)
  /\ ~ In (CompleteResponse (lit "Roses are"))
          (fst (simple_example.streaming_with_collection (inr two_fragments_then_fault))).
Proof.
  vm_compute. repeat split.
  - intros [e He]. discriminate He.
  - intros H. repeat (destruct H as [H|H]; [discriminate H|]). exact H.
Qed.



(** ** Splitting on whitespace *)

Lemma length_split_from word s :
  length (split_from word s)
  = match word with
    | [] => word_starts true s
    | _ => 1 + word_starts false s
    end.
Proof.
  revert word. induction s as [|c s IH]; intros word; simpl.
  - destruct word; reflexivity.
  - destruct (isspace c) eqn:Hc.
    + destruct word; simpl; rewrite IH; reflexivity.
    + rewrite IH. destruct word; reflexivity.
Qed.

(** The number of tokens is the number of word beginnings. *)
Lemma length_split s : length (split s) = word_starts true s.
Proof. apply length_split_from. Qed.

(** The tokens, put together, are the text without its whitespace. *)
Lemma concat_split_from word s :
  concat (split_from word s) = word ++ List.filter (fun c => negb (isspace c)) s.
Proof.
  revert word. induction s as [|c s IH]; intros word; simpl.
  - destruct word; simpl; rewrite ?app_nil_r; reflexivity.
  - destruct (isspace c) eqn:Hc; simpl.
    + destruct word; simpl; rewrite IH; reflexivity.
    + rewrite IH, <- app_assoc. reflexivity.
Qed.

Lemma concat_split s : concat (split s) = List.filter (fun c => negb (isspace c)) s.
Proof. apply concat_split_from. Qed.

(** No token is empty and no token holds whitespace. *)
Lemma split_from_tokens word s :
  forallb (fun c => negb (isspace c)) word = true ->
  Forall (fun w => w <> [] /\ forallb (fun c => negb (isspace c)) w = true)
         (split_from word s).
Proof.
  revert word. induction s as [|c s IH]; intros word Hword; simpl.
  - destruct word; constructor; [split; [discriminate | assumption] | constructor].
  - destruct (isspace c) eqn:Hc.
    + destruct word as [|w0 word].
      * apply IH. reflexivity.
      * constructor; [split; [discriminate | assumption] | apply IH; reflexivity].
    + apply IH. rewrite forallb_app, Hword. simpl. rewrite Hc. reflexivity.
Qed.

Lemma split_tokens s :
  Forall (fun w => w <> [] /\ forallb (fun c => negb (isspace c)) w = true) (split s).
Proof. apply split_from_tokens. reflexivity. Qed.

Example split_hello : split (lit "  Hello,   streaming world ") =
                      [lit "Hello,"; lit "streaming"; lit "world"].
Proof. reflexivity. Qed.

(** ** Counting sentence terminators *)

Lemma count_nonneg ch s : (0 <= count ch s)%Z.
Proof. unfold count. lia. Qed.

Lemma len_nonneg {A} (l : list A) : (0 <= len l)%Z.
Proof. unfold len. lia. Qed.

Lemma count_absent ch s : contains ch s = false -> count ch s = 0%Z.
Proof.
  unfold contains, count. induction s as [|c s IH]; simpl; [reflexivity|].
  destruct (c =? ch)%N; simpl; [discriminate | exact IH].
Qed.

(** The guard of the source changes nothing: with or without it, the three
    counts are added. *)
Lemma count_sentences_adds_counts content sentence_count :
  StreamingDemo.count_sentences content sentence_count
  = (sentence_count + (count (ord ".") content + count (ord "!") content + count (ord "?") content))%Z.
Proof.
  unfold StreamingDemo.count_sentences.
  destruct (existsb _ _) eqn:Hany; [reflexivity|].
  cbn in Hany.
  apply orb_false_elim in Hany as [Hdot Hany].
  apply orb_false_elim in Hany as [Hbang Hany].
  apply orb_false_elim in Hany as [Hquestion _].
  rewrite !count_absent by assumption. lia.
Qed.

(** C10. The guarded update of [sentence_count] of the source and the
    unconditional addition of the three counts give the same count for
    every text: when none of '.', '!', '?' occurs, the three counts are
    zero. *)
Theorem count_sentences_guard_is_redundant (content : str) (sentence_count : Z) :
  StreamingDemo.count_sentences content sentence_count
  = count_sentences_unconditional content sentence_count.
Proof. apply count_sentences_adds_counts. Qed.

(** ** Live statistics *)

(** C4. A delta with content [text] raises [word_count] by exactly the
    number of tokens of [text.split()], and [sentence_count] by exactly the
    number of '.', '!' and '?' in [text]; both increments are computed from
    [text] alone, whatever has been accumulated, and the number of tokens is
    the number of word beginnings in [text]. *)
Theorem counters_grow_by_fragment
  (text : str) (fc : option ChoiceDeltaFunctionCall) (st : StreamingDemo.stats_locals) :
  let st' := StreamingDemo.real_time_processing_demo_body
               {| content := Some text; function_call := fc |} st in
  StreamingDemo.word_count st' = (StreamingDemo.word_count st + len (split text))%Z
  /\ StreamingDemo.sentence_count st'
     = (StreamingDemo.sentence_count st
        + (count (ord ".") text + count (ord "!") text + count (ord "?") text))%Z
  /\ len (split text) = Z.of_nat (word_starts true text)
  /\ StreamingDemo.current_sentence st' = StreamingDemo.current_sentence st ++ text.
Proof.
  cbn. repeat split.
  - apply count_sentences_adds_counts.
  - unfold len. rewrite length_split. reflexivity.
Qed.

Lemma real_time_body_monotone d st :
  (StreamingDemo.word_count st
   <= StreamingDemo.word_count (StreamingDemo.real_time_processing_demo_body d st))%Z
  /\ (StreamingDemo.sentence_count st
      <= StreamingDemo.sentence_count (StreamingDemo.real_time_processing_demo_body d st))%Z.
Proof.
  unfold StreamingDemo.real_time_processing_demo_body.
  destruct (content d) as [text|]; simpl; [|lia].
  rewrite count_sentences_adds_counts.
  pose proof (len_nonneg (split text)).
  pose proof (count_nonneg (ord ".") text).
  pose proof (count_nonneg (ord "!") text).
  pose proof (count_nonneg (ord "?") text).
  lia.
Qed.

(** C8. Processing a delta never lowers [word_count] nor [sentence_count],
    and so neither counter is lower when the loop stops, however the stream
    ends, than at any earlier point of the consumption. *)
Theorem counters_never_decrease :
  (forall d st,
     (StreamingDemo.word_count st
      <= StreamingDemo.word_count (StreamingDemo.real_time_processing_demo_body d st))%Z
     /\ (StreamingDemo.sentence_count st
         <= StreamingDemo.sentence_count
              (StreamingDemo.real_time_processing_demo_body d st))%Z)
  /\ (forall stream st,
       let final := fst (async_for StreamingDemo.real_time_processing_demo_body stream st) in
       (StreamingDemo.word_count st <= StreamingDemo.word_count final)%Z
       /\ (StreamingDemo.sentence_count st <= StreamingDemo.sentence_count final)%Z).
Proof.
  split; [apply real_time_body_monotone|].
  intros stream. induction stream as [| e | chunk rest IH]; intros st; simpl; try lia.
  destruct (choices_0_delta chunk) as [e|d]; simpl; [lia|].
  specialize (IH (StreamingDemo.real_time_processing_demo_body d st)). simpl in IH.
  pose proof (real_time_body_monotone d st). lia.
Qed.

(** C3, as the code has it. Consuming the content fragments "Hello ",
    "world", "!" ends with the text "Hello world!", [sentence_count] 1 and
    [word_count] 3: each fragment is split on its own, and "!" is a token
    of its fragment. *)
Theorem hello_world_statistics :
  let final := fst (async_for StreamingDemo.real_time_processing_demo_body
                      (yields (map chunk_of hello_world) StopAsyncIteration)
                      StreamingDemo.stats_entry) in
  StreamingDemo.current_sentence final = lit "Hello world!"
  /\ StreamingDemo.word_count final = 3%Z
  /\ StreamingDemo.sentence_count final = 1%Z
  /\ last (fst (StreamingDemo.real_time_processing_demo
                  (inr (yields (map chunk_of hello_world) StopAsyncIteration))))
     = Some (LiveUpdate 3 1 12 (lit "Hello world!")).
Proof. vm_compute. repeat split. Qed.

(** C3 as worded fails: the word count reached is not 2. *)
Lemma hello_world_word_count_is_not_2 :
  StreamingDemo.word_count
    (fst (async_for StreamingDemo.real_time_processing_demo_body
            (yields (map chunk_of hello_world) StopAsyncIteration)
            StreamingDemo.stats_entry))
  <> 2%Z.
Proof. vm_compute. discriminate. Qed.

(** Splitting the whole text would give 2: the count kept by the loop is
    not a rescan of what has been accumulated. *)
Example hello_world_rescanned : len (split (lit "Hello world!")) = 2%Z.
Proof. reflexivity. Qed.

(** ** Deltas without content *)

(** C9. A delta whose content is [None] leaves the collecting loops and
    the statistics loop exactly as they were: the text collected, the word
    count and the sentence count are unchanged, nothing is printed and
    nothing is raised. These loops record no function call. *)
Theorem no_content_changes_nothing (markup_error : str -> option str)
    (fc : option ChoiceDeltaFunctionCall) :
  (forall st, simple_example.streaming_with_collection_body
                {| content := None; function_call := fc |} st = st)
  /\ (forall st, StreamingDemo.basic_streaming_demo_body markup_error
                   {| content := None; function_call := fc |} st = (st, None))
  /\ (forall st, StreamingDemo.real_time_processing_demo_body
                   {| content := None; function_call := fc |} st = st).
Proof. repeat split. Qed.

(** In the loop of [function_calling_streaming_demo], the function call
    of a chunk is handled whether or not the chunk has content: a start
    has none and adds a record. *)
Example start_without_content_is_recorded :
  content (function_call_start (lit "get_weather")) = None
  /\ StreamingDemo.function_calls
       (StreamingDemo.function_calling_streaming_demo_body
          (function_call_start (lit "get_weather")) StreamingDemo.calling_entry)
     = [{| StreamingDemo.name := lit "get_weather"; StreamingDemo.arguments := [] |}].
Proof. split; reflexivity. Qed.

(** ** Recorded function calls *)

Lemma extend_last_nil calls : StreamingDemo.extend_last [] calls = calls.
Proof.
  unfold StreamingDemo.extend_last. apply list_alter_id.
  intros [n a]. simpl. rewrite app_nil_r. reflexivity.
Qed.

Lemma extend_last_snoc text calls c :
  StreamingDemo.extend_last text (calls ++ [c])
  = calls ++ [{| StreamingDemo.name := StreamingDemo.name c;
                 StreamingDemo.arguments := StreamingDemo.arguments c ++ text |}].
Proof.
  unfold StreamingDemo.extend_last.
  rewrite length_app. simpl.
  replace (length calls + 1 - 1) with (length calls + 0) by lia.
  rewrite alter_app_r. reflexivity.
Qed.

Lemma length_extend_last text calls :
  length (StreamingDemo.extend_last text calls) = length calls.
Proof. apply length_alter. Qed.

Lemma extend_last_app text1 text2 calls :
  StreamingDemo.extend_last (text1 ++ text2) calls
  = StreamingDemo.extend_last text2 (StreamingDemo.extend_last text1 calls).
Proof.
  destruct calls as [|c0 calls'] using rev_ind; [reflexivity|].
  rewrite !extend_last_snoc. simpl. rewrite app_assoc. reflexivity.
Qed.

(** What one delta does to the recorded calls. *)
Lemma function_calls_body d st :
  StreamingDemo.function_calls (StreamingDemo.function_calling_streaming_demo_body d st)
  = if is_start d
    then StreamingDemo.function_calls st
         ++ [{| StreamingDemo.name := start_name d;
                StreamingDemo.arguments := args_text d |}]
    else StreamingDemo.extend_last (args_text d) (StreamingDemo.function_calls st).
Proof.
  unfold StreamingDemo.function_calling_streaming_demo_body, is_start, start_name, args_text.
  destruct (function_call d) as [fc|].
  - destruct (truthy (openai.name fc)) eqn:Hname.
    + destruct (content d); reflexivity.
    + unfold or_empty.
      destruct (truthy (openai.arguments fc)) eqn:Hargs.
      * destruct (content d); simpl;
          (destruct (StreamingDemo.function_calls st) eqn:Hcalls; simpl;
           rewrite ?Hcalls; reflexivity).
      * rewrite extend_last_nil. destruct (content d); reflexivity.
  - rewrite extend_last_nil. destruct (content d); reflexivity.
Qed.

(** The recorded calls after a run: the last call already open receives the
    texts that arrive before the next start, and every start of the run adds
    its record. *)
Lemma function_calls_run ds st :
  StreamingDemo.function_calls
    (run StreamingDemo.function_calling_streaming_demo_body ds st)
  = StreamingDemo.extend_last (args_before_next_start ds) (StreamingDemo.function_calls st)
    ++ calls_recorded ds.
Proof.
  revert st. induction ds as [|d ds IH]; intros st.
  - simpl. rewrite extend_last_nil, app_nil_r. reflexivity.
  - change (run StreamingDemo.function_calling_streaming_demo_body (d :: ds) st)
      with (run StreamingDemo.function_calling_streaming_demo_body ds
              (StreamingDemo.function_calling_streaming_demo_body d st)).
    rewrite IH, function_calls_body. simpl.
    destruct (is_start d).
    + rewrite extend_last_snoc, extend_last_nil, <- app_assoc. reflexivity.
    + rewrite extend_last_app. reflexivity.
Qed.

Lemma length_calls_recorded ds : length (calls_recorded ds) = count_starts ds.
Proof.
  unfold count_starts. induction ds as [|d ds IH]; simpl; [reflexivity|].
  destruct (is_start d); simpl; rewrite IH; reflexivity.
Qed.

(** From nothing recorded, the calls are those of the reference. *)
Lemma function_calls_from_no_calls ds :
  StreamingDemo.function_calls
    (run StreamingDemo.function_calling_streaming_demo_body ds StreamingDemo.calling_entry)
  = calls_recorded ds.
Proof. rewrite function_calls_run. reflexivity. Qed.

Lemma args_before_next_start_app mid rest :
  forallb (fun d => negb (is_start d)) mid = true ->
  ends_or_starts rest = true ->
  args_before_next_start (mid ++ rest) = concat (map args_text mid).
Proof.
  intros Hmid Hrest. induction mid as [|d mid IH]; simpl.
  - destruct rest as [|d rest]; [reflexivity|]. simpl in *. rewrite Hrest. reflexivity.
  - simpl in Hmid. apply andb_true_iff in Hmid as [Hd Hmid].
    apply negb_true_iff in Hd. rewrite Hd, IH by assumption. reflexivity.
Qed.

(** The record of the [i]-th start [d], followed by the deltas [mid], none
    of them a start, up to the next start or the end. *)
Lemma recorded_call_of_deltas (pre : list ChoiceDelta) (d : ChoiceDelta)
    (mid rest : list ChoiceDelta) :
  is_start d = true ->
  forallb (fun d => negb (is_start d)) mid = true ->
  ends_or_starts rest = true ->
  StreamingDemo.function_calls
    (run StreamingDemo.function_calling_streaming_demo_body
       (pre ++ d :: mid ++ rest) StreamingDemo.calling_entry)
  !! count_starts pre
  = Some {| StreamingDemo.name := start_name d;
            StreamingDemo.arguments := args_text d ++ concat (map args_text mid) |}
  /\ length (StreamingDemo.function_calls
              (run StreamingDemo.function_calling_streaming_demo_body
                 (pre ++ d :: mid ++ rest) StreamingDemo.calling_entry))
     = count_starts (pre ++ d :: mid ++ rest).
Proof.
  intros Hd Hmid Hrest. split.
  - rewrite run_app, function_calls_run, function_calls_from_no_calls.
    rewrite lookup_app_r by (rewrite length_extend_last, length_calls_recorded; lia).
    rewrite length_extend_last, length_calls_recorded, Nat.sub_diag.
    simpl. rewrite Hd. simpl.
    rewrite args_before_next_start_app by assumption. reflexivity.
  - rewrite function_calls_from_no_calls. apply length_calls_recorded.
Qed.

(** The loop of [function_calling_streaming_demo] over deltas whose
    contents the console accepts does what its body does to the
    variables, delta after delta. *)
Lemma calling_loop_accepted markup_error ds rest st :
  Forall (fun t => markup_error t = None) (texts ds) ->
  async_for_raising (StreamingDemo.function_calling_streaming_demo_step markup_error)
    (yields (map chunk_of ds) rest) st
  = async_for_raising (StreamingDemo.function_calling_streaming_demo_step markup_error)
      rest (run StreamingDemo.function_calling_streaming_demo_body ds st).
Proof.
  revert st. induction ds as [|d ds IH]; intros st Hts; [reflexivity|].
  simpl. unfold StreamingDemo.function_calling_streaming_demo_step at 1.
  unfold texts in *. simpl in Hts.
  destruct (content d) as [t|]; simpl in Hts.
  - inversion Hts as [|t' ts' Ht Hts']; subst. rewrite Ht. apply IH. exact Hts'.
  - apply IH. exact Hts.
Qed.

Lemma calling_loop_any_accepted markup_error stream st :
  Forall (fun t => markup_error t = None) (texts (consumed stream)) ->
  async_for_raising (StreamingDemo.function_calling_streaming_demo_step markup_error)
    stream st
  = (run StreamingDemo.function_calling_streaming_demo_body (consumed stream) st,
     ending stream).
Proof.
  revert st. induction stream as [| e | chunk rest IH]; intros st Hts; simpl;
    try reflexivity.
  simpl in Hts. destruct (choices_0_delta chunk) as [e|d]; [reflexivity|].
  unfold StreamingDemo.function_calling_streaming_demo_step at 1.
  unfold texts in *. simpl in Hts.
  destruct (content d) as [t|]; simpl in Hts.
  - inversion Hts as [|t' ts' Ht Hts']; subst. rewrite Ht. apply IH. exact Hts'.
  - apply IH. exact Hts.
Qed.

Lemma texts_call_fragments fragments : texts (map delta_of fragments) = [].
Proof.
  induction fragments as [|[name|text] fragments IH]; [reflexivity| |];
    unfold texts in *; simpl; exact IH.
Qed.

Lemma is_start_named f : named f = true -> is_start (delta_of f) = is_start_fragment f.
Proof. destruct f as [[|c name]|text]; simpl; [discriminate| |]; reflexivity. Qed.

Lemma count_starts_named fragments :
  forallb named fragments = true ->
  count_starts (map delta_of fragments)
  = length (List.filter is_start_fragment fragments).
Proof.
  unfold count_starts. induction fragments as [|f fragments IH]; intros Hnamed;
    [reflexivity|].
  simpl in Hnamed. apply andb_true_iff in Hnamed as [Hf Hnamed]. simpl.
  rewrite (is_start_named f Hf). destruct (is_start_fragment f); simpl;
    rewrite IH by exact Hnamed; reflexivity.
Qed.

Lemma forallb_named_deltas deltas :
  forallb named (map FunctionCallArgsDelta deltas) = true.
Proof. induction deltas as [|t deltas IH]; simpl; [reflexivity | exact IH]. Qed.

(** C2. Take a sequence of function-call starts and argument deltas in
    which every start names its function. Let its [i]-th start be
    followed by the argument deltas [deltas], up to the next start or the
    end. Consumption reaches the end of the sequence, and the [i]-th
    recorded call then has the name of that start and, as arguments,
    exactly the concatenation of [deltas] in order; there are as many
    records as starts. *)
Theorem recorded_call_arguments (markup_error : str -> option str)
    (pre rest : list call_fragment) (name : str) (deltas : list str) :
  forallb named (pre ++ FunctionCallStart name :: rest) = true ->
  ends_or_begins_with_start rest = true ->
  let fragments :=
    pre ++ FunctionCallStart name :: map FunctionCallArgsDelta deltas ++ rest in
  let consumption :=
    async_for_raising (StreamingDemo.function_calling_streaming_demo_step markup_error)
      (yields (map chunk_of (map delta_of fragments)) StopAsyncIteration)
      StreamingDemo.calling_entry in
  snd consumption = None
  /\ StreamingDemo.function_calls (fst consumption)
     !! length (List.filter is_start_fragment pre)
     = Some {| StreamingDemo.name := name;
               StreamingDemo.arguments := concat deltas |}
  /\ length (StreamingDemo.function_calls (fst consumption))
     = length (List.filter is_start_fragment fragments).
Proof.
  intros Hnamed Hrest. cbv zeta.
  rewrite calling_loop_accepted by (rewrite texts_call_fragments; constructor).
  cbn [async_for_raising fst snd].
  rewrite forallb_app in Hnamed. apply andb_true_iff in Hnamed as [Hpre Hstart].
  cbn [forallb] in Hstart. apply andb_true_iff in Hstart as [Hname Hrest_named].
  assert (Hall : forallb named
            (pre ++ FunctionCallStart name :: map FunctionCallArgsDelta deltas ++ rest)
          = true).
  { rewrite forallb_app. cbn [forallb]. rewrite Hpre, Hname, forallb_app,
      forallb_named_deltas, Hrest_named. reflexivity. }
  assert (Heq : map delta_of
                  (pre ++ FunctionCallStart name
                       :: map FunctionCallArgsDelta deltas ++ rest)
                = map delta_of pre
                  ++ delta_of (FunctionCallStart name)
                  :: map delta_of (map FunctionCallArgsDelta deltas)
                  ++ map delta_of rest).
  { rewrite map_app. cbn [map]. rewrite map_app. reflexivity. }
  assert (Hdeltas : concat (map args_text
                              (map delta_of (map FunctionCallArgsDelta deltas)))
                    = concat deltas).
  { clear. induction deltas as [|t deltas IH]; simpl; [reflexivity|].
    rewrite IH. destruct t; reflexivity. }
  rewrite <- (count_starts_named _ Hall), <- (count_starts_named pre Hpre), Heq.
  destruct (recorded_call_of_deltas (map delta_of pre)
              (delta_of (FunctionCallStart name))
              (map delta_of (map FunctionCallArgsDelta deltas))
              (map delta_of rest)) as [Hcall Hlength].
  - rewrite (is_start_named _ Hname). reflexivity.
  - clear. induction deltas as [|t deltas IH]; simpl; [reflexivity | exact IH].
  - destruct rest as [|f rest]; [reflexivity|]. cbn [forallb] in Hrest_named.
    apply andb_true_iff in Hrest_named as [Hf _]. simpl.
    rewrite (is_start_named f Hf). exact Hrest.
  - split; [reflexivity|]. split; [|exact Hlength].
    rewrite Hcall, Hdeltas. reflexivity.
Qed.

(** The scenario of the weather call: one start and two deltas give the
    single record with the whole arguments. *)
Lemma recorded_call_arguments_witness :
  (forallb named ([] ++ FunctionCallStart (lit "get_weather") :: []) = true
   /\ ends_or_begins_with_start [] = true)
  /\ StreamingDemo.function_calls
       (fst (async_for_raising
               (StreamingDemo.function_calling_streaming_demo_step accepts_every_text)
               (yields (map chunk_of get_weather_call) StopAsyncIteration)
               StreamingDemo.calling_entry))
     !! 0
     = Some {| StreamingDemo.name := lit "get_weather";
               StreamingDemo.arguments := loc_key ++ nyc_value |}
  /\ length (StreamingDemo.function_calls
              (fst (async_for_raising
                      (StreamingDemo.function_calling_streaming_demo_step
                         accepts_every_text)
                      (yields (map chunk_of get_weather_call) StopAsyncIteration)
                      StreamingDemo.calling_entry)))
     = 1.
Proof.
  split; [split; reflexivity|].
  destruct (recorded_call_arguments accepts_every_text [] []
              (lit "get_weather") [loc_key; nyc_value] eq_refl eq_refl)
    as (_ & Hcall & Hlength).
  split; [exact Hcall | exact Hlength].
Defined.

Example get_weather_panel :
  StreamingDemo.function_calling_streaming_demo accepts_every_text
    (inr (yields (map chunk_of get_weather_call) StopAsyncIteration))
  = ([Title; FunctionCallsDetected;
      FunctionCallPanel (lit "get_weather") (loc_key ++ nyc_value)], Returned).
Proof. reflexivity. Qed.

(** A function call with an empty name is not a start: its arguments go to
    the call already open. *)
Example empty_name_extends_open_call :
  StreamingDemo.function_calls
    (run StreamingDemo.function_calling_streaming_demo_body
       [function_call_start (lit "get_weather"); function_call_args_delta loc_key;
        {| content := None;
           function_call := Some {| openai.name := Some [];
                                    openai.arguments := Some nyc_value |} |}]
       StreamingDemo.calling_entry)
  = [{| StreamingDemo.name := lit "get_weather";
        StreamingDemo.arguments := loc_key ++ nyc_value |}].
Proof. reflexivity. Qed.

(** A chunk that is a start and carries arguments at once keeps them at
    the head of the record. *)
Example start_arguments_are_kept :
  StreamingDemo.function_calls
    (run StreamingDemo.function_calling_streaming_demo_body
       [get_weather_start_with_arguments; function_call_args_delta nyc_value]
       StreamingDemo.calling_entry)
  = [{| StreamingDemo.name := lit "get_weather";
        StreamingDemo.arguments := loc_key ++ nyc_value |}].
Proof. reflexivity. Qed.

(** ** An arguments delta with no call open *)

Lemma no_start_no_calls pre :
  count_starts pre = 0 ->
  StreamingDemo.function_calls
    (run StreamingDemo.function_calling_streaming_demo_body pre StreamingDemo.calling_entry) = [].
Proof.
  intros Hpre. rewrite function_calls_from_no_calls.
  apply length_zero_iff_nil. rewrite length_calls_recorded. exact Hpre.
Qed.

Lemma orphan_delta_body d st :
  content d = None ->
  is_start d = false ->
  StreamingDemo.function_calls st = [] ->
  StreamingDemo.function_calling_streaming_demo_body d st = st.
Proof.
  intros Hcontent Hstart Hcalls.
  unfold StreamingDemo.function_calling_streaming_demo_body, is_start in *.
  rewrite Hcontent. destruct (function_call d) as [fc|]; [|reflexivity].
  rewrite Hstart. destruct (truthy (openai.arguments fc)); [|reflexivity].
  rewrite Hcalls. reflexivity.
Qed.

(** The loop with and without an orphan delta, from any state without
    calls. *)
Lemma orphan_delta_skipped markup_error pre d post ending st :
  count_starts pre = 0 ->
  content d = None ->
  is_start d = false ->
  StreamingDemo.function_calls st = [] ->
  async_for_raising (StreamingDemo.function_calling_streaming_demo_step markup_error)
    (yields (map chunk_of (pre ++ d :: post)) ending) st
  = async_for_raising (StreamingDemo.function_calling_streaming_demo_step markup_error)
      (yields (map chunk_of (pre ++ post)) ending) st.
Proof.
  intros Hpre Hcontent Hstart. revert st.
  induction pre as [|p pre IH]; intros st Hcalls.
  - simpl. unfold StreamingDemo.function_calling_streaming_demo_step at 1.
    rewrite Hcontent, orphan_delta_body by assumption. reflexivity.
  - unfold count_starts in Hpre. simpl in Hpre.
    destruct (is_start p) eqn:Hp; [discriminate|].
    simpl. unfold StreamingDemo.function_calling_streaming_demo_step at 1 3.
    assert (Hnext : StreamingDemo.function_calls
                      (StreamingDemo.function_calling_streaming_demo_body p st) = []).
    { rewrite function_calls_body, Hp, Hcalls. reflexivity. }
    destruct (content p) as [t|].
    + destruct (markup_error t); [reflexivity|]. apply IH; assumption.
    + apply IH; assumption.
Qed.

(** C5. Let no call be recorded yet (no start among [pre]) and let [d] be a
    function-call delta that is not a start and has no content, such as an
    arguments delta. Then [d] changes nothing and raises nothing: the state
    after it is the state before it, the loop goes on with what follows
    exactly as if [d] had not arrived, however the stream continues, and
    the whole demo does and prints what it would without [d]. *)
Theorem orphan_arguments_delta_is_ignored (markup_error : str -> option str)
    (pre post : list ChoiceDelta) (d : ChoiceDelta) (ending : AsyncStream) :
  count_starts pre = 0 ->
  content d = None ->
  is_start d = false ->
  run StreamingDemo.function_calling_streaming_demo_body (pre ++ [d])
    StreamingDemo.calling_entry
  = run StreamingDemo.function_calling_streaming_demo_body pre StreamingDemo.calling_entry
  /\ (forall st,
       StreamingDemo.function_calls st = [] ->
       StreamingDemo.function_calling_streaming_demo_step markup_error d st = (st, None))
  /\ async_for_raising (StreamingDemo.function_calling_streaming_demo_step markup_error)
       (yields (map chunk_of (pre ++ d :: post)) ending) StreamingDemo.calling_entry
     = async_for_raising (StreamingDemo.function_calling_streaming_demo_step markup_error)
         (yields (map chunk_of (pre ++ post)) ending) StreamingDemo.calling_entry
  /\ StreamingDemo.function_calling_streaming_demo markup_error
       (inr (yields (map chunk_of (pre ++ d :: post)) StopAsyncIteration))
     = StreamingDemo.function_calling_streaming_demo markup_error
         (inr (yields (map chunk_of (pre ++ post)) StopAsyncIteration)).
Proof.
  intros Hpre Hcontent Hstart. repeat split.
  - rewrite run_app. apply orphan_delta_body; auto using no_start_no_calls.
  - intros st Hcalls. unfold StreamingDemo.function_calling_streaming_demo_step.
    rewrite Hcontent, orphan_delta_body by assumption. reflexivity.
  - apply orphan_delta_skipped; auto.
  - unfold StreamingDemo.function_calling_streaming_demo.
    rewrite orphan_delta_skipped by auto. reflexivity.
Qed.

Lemma orphan_arguments_delta_is_ignored_witness :
  (count_starts [content_fragment (lit "Let me check. ")] = 0
   /\ content (function_call_args_delta nyc_value) = None
   /\ is_start (function_call_args_delta nyc_value) = false)
  /\ StreamingDemo.function_calling_streaming_demo accepts_every_text
       (inr (yields (map chunk_of ([content_fragment (lit "Let me check. ")]
                                   ++ function_call_args_delta nyc_value
                                   :: get_weather_call))
                    StopAsyncIteration))
     = StreamingDemo.function_calling_streaming_demo accepts_every_text
         (inr (yields (map chunk_of ([content_fragment (lit "Let me check. ")]
                                     ++ get_weather_call))
                      StopAsyncIteration)).
Proof.
  split; [repeat split|].
  destruct (orphan_arguments_delta_is_ignored accepts_every_text
              [content_fragment (lit "Let me check. ")] get_weather_call
              (function_call_args_delta nyc_value) StopAsyncIteration
              eq_refl eq_refl eq_refl) as (_ & _ & _ & Hdemo).
  exact Hdemo.
Defined.

Example orphan_then_call :
  StreamingDemo.function_calling_streaming_demo accepts_every_text
    (inr (yields (map chunk_of (function_call_args_delta nyc_value :: get_weather_call))
                 StopAsyncIteration))
  = ([Title; FunctionCallsDetected;
      FunctionCallPanel (lit "get_weather") (loc_key ++ nyc_value)], Returned).
Proof. reflexivity. Qed.

(** * The rest of the two files *)

(** ** Any stream *)

(** A loop that reads [choices[0]] processes the deltas of [consumed] and
    ends as [ending] tells. *)
Lemma async_for_normal_form {S : Type} (body : ChoiceDelta -> S -> S) stream (st : S) :
  async_for body stream st = (run body (consumed stream) st, ending stream).
Proof.
  revert st. induction stream as [| e | chunk rest IH]; intros st; simpl; try reflexivity.
  destruct (choices_0_delta chunk) as [e|d]; [reflexivity|]. apply IH.
Qed.

Lemma consumed_yields ds rest :
  consumed (yields (map chunk_of ds) rest) = ds ++ consumed rest.
Proof. induction ds as [|d ds IH]; simpl; [reflexivity|]. by rewrite IH. Qed.

Lemma ending_yields ds rest : ending (yields (map chunk_of ds) rest) = ending rest.
Proof. induction ds as [|d ds IH]; simpl; [reflexivity|]. exact IH. Qed.

Lemma streaming_with_collection_any stream :
  simple_example.streaming_with_collection (inr stream)
  = (Title :: map Content (texts (consumed stream))
       ++ fst (closing (ending stream)
                 [CompleteResponse (concat (texts (consumed stream)))] ErrorMessage),
     snd (closing (ending stream)
            [CompleteResponse (concat (texts (consumed stream)))] ErrorMessage)).
Proof.
  unfold simple_example.streaming_with_collection.
  rewrite async_for_normal_form, run_streaming_with_collection.
  destruct (ending stream) as [e|]; simpl; [|reflexivity].
  destruct (isinstance_Exception e); simpl; rewrite ?app_nil_r; reflexivity.
Qed.

(** X1. For every stream whatsoever, [streaming_with_collection] echoes
    the content of the chunks read before the stream stops, raises or
    yields a chunk without choices, and then: after exhaustion shows
    exactly the concatenation of what was echoed; after an [Exception]
    prints the error and returns; after any other exception prints nothing
    more and lets it through. [basic_streaming_demo] does the same, with
    its heading before the full response, whenever the console accepts as
    markup the contents it echoes and the last text it prints. *)
Theorem collecting_demos_on_any_stream (markup_error : str -> option str)
    (stream : AsyncStream) :
  let ts := texts (consumed stream) in
  let last_lines := closing (ending stream) [CompleteResponse (concat ts)] ErrorMessage in
  let last_text :=
    match ending stream with
    | None => concat ts
    | Some e => StreamingDemo.streaming_error_text e
    end in
  simple_example.streaming_with_collection (inr stream)
  = (Title :: map Content ts ++ fst last_lines, snd last_lines)
  /\ (Forall (fun t => markup_error t = None) ts ->
      markup_error last_text = None ->
      StreamingDemo.basic_streaming_demo markup_error (inr stream)
      = (Title :: map Content ts
           ++ fst (closing (ending stream)
                     [FullResponseCollected; CompleteResponse (concat ts)] ErrorMessage),
         snd last_lines)).
Proof.
  split; [apply streaming_with_collection_any|].
  intros Hts Hlast. unfold StreamingDemo.basic_streaming_demo.
  rewrite basic_loop_any_accepted by exact Hts. simpl.
  unfold except_Exception, console_print.
  destruct (ending stream) as [e|]; simpl.
  - destruct (isinstance_Exception e); simpl; [rewrite Hlast|];
      rewrite ?app_nil_r; reflexivity.
  - rewrite Hlast. simpl. rewrite <- app_assoc. reflexivity.
Qed.

Lemma collecting_demos_on_any_stream_witness :
  (Forall (fun t => accepts_every_text t = None) (texts (consumed two_fragments_then_fault))
   /\ accepts_every_text (StreamingDemo.streaming_error_text connection_reset) = None)
  /\ StreamingDemo.basic_streaming_demo accepts_every_text (inr two_fragments_then_fault)
     = ([Title; Content (lit "Roses "); Content (lit "are");
         ErrorMessage connection_reset], Returned).
Proof.
  split; [split; [repeat constructor | reflexivity]|].
  destruct (collecting_demos_on_any_stream accepts_every_text two_fragments_then_fault)
    as [_ Hbasic].
  apply Hbasic; [repeat constructor | reflexivity].
Defined.

Lemma yields_app chunks1 chunks2 rest :
  yields (chunks1 ++ chunks2) rest = yields chunks1 (yields chunks2 rest).
Proof. induction chunks1 as [|c chunks1 IH]; simpl; [reflexivity | by rewrite IH]. Qed.

(** X17. In [basic_streaming_demo], a content the console rejects ends the
    loop at that chunk: the content is in [full_response] but is not
    echoed, and nothing after it is read. The handler then prints the
    console's error and the demo returns, unless the console rejects the
    handler's message too: then its error leaves the demo, which has
    printed nothing after the echoes. No complete response is shown. *)
Theorem rejected_content_ends_the_demo (markup_error : str -> option str)
    (ds : list ChoiceDelta) (rejected message : str) (rest : AsyncStream) :
  Forall (fun t => markup_error t = None) (texts ds) ->
  markup_error rejected = Some message ->
  async_for_raising (StreamingDemo.basic_streaming_demo_body markup_error)
    (yields (map chunk_of (ds ++ [content_fragment rejected])) rest)
    StreamingDemo.basic_entry
  = ({| StreamingDemo.full_response := concat (texts ds) ++ rejected;
        StreamingDemo.console := Title :: map Content (texts ds) |},
     Some (MarkupError message))
  /\ StreamingDemo.basic_streaming_demo markup_error
       (inr (yields (map chunk_of (ds ++ [content_fragment rejected])) rest))
     = match markup_error (StreamingDemo.streaming_error_text (MarkupError message)) with
       | None =>
           (Title :: map Content (texts ds) ++ [ErrorMessage (MarkupError message)],
            Returned)
       | Some message' =>
           (Title :: map Content (texts ds), Propagated (MarkupError message'))
       end.
Proof.
  intros Hts Hrejected.
  assert (Hloop :
    async_for_raising (StreamingDemo.basic_streaming_demo_body markup_error)
      (yields (map chunk_of (ds ++ [content_fragment rejected])) rest)
      StreamingDemo.basic_entry
    = ({| StreamingDemo.full_response := concat (texts ds) ++ rejected;
          StreamingDemo.console := Title :: map Content (texts ds) |},
       Some (MarkupError message))).
  { rewrite map_app, yields_app. rewrite basic_loop_accepted by exact Hts. simpl.
    unfold StreamingDemo.basic_streaming_demo_body, console_print. simpl.
    rewrite Hrejected. reflexivity. }
  split; [exact Hloop|].
  unfold StreamingDemo.basic_streaming_demo. rewrite Hloop. simpl.
  unfold except_Exception, console_print. simpl.
  destruct (markup_error (StreamingDemo.streaming_error_text _)); reflexivity.
Qed.

Lemma rejected_content_ends_the_demo_witness :
  (Forall (fun t => rejects (lit "see [/INST]") t = None) (texts roses_are)
   /\ rejects (lit "see [/INST]") (lit "see [/INST]")
      = Some (lit "closing tag has nothing to close"))
  /\ async_for_raising
       (StreamingDemo.basic_streaming_demo_body (rejects (lit "see [/INST]")))
       (yields (map chunk_of (roses_are ++ [content_fragment (lit "see [/INST]")]))
               StopAsyncIteration)
       StreamingDemo.basic_entry
     = ({| StreamingDemo.full_response := lit "Roses aresee [/INST]";
           StreamingDemo.console :=
             [Title; Content (lit "Roses "); Content (lit "are")] |},
        Some (MarkupError (lit "closing tag has nothing to close"))).
Proof.
  assert (Hts : Forall (fun t => rejects (lit "see [/INST]") t = None) (texts roses_are))
    by (repeat constructor).
  split; [split; [exact Hts | reflexivity]|].
  destruct (rejected_content_ends_the_demo (rejects (lit "see [/INST]")) roses_are
              (lit "see [/INST]") (lit "closing tag has nothing to close")
              StopAsyncIteration Hts eq_refl) as [Hloop _].
  exact Hloop.
Defined.

(** ** simple_streaming *)

Lemma run_simple_streaming ds out :
  run simple_example_rest.simple_streaming_body ds out
  = out ++ map (fun t => Print (Content t)) (texts ds).
Proof.
  revert out. induction ds as [|d ds IH]; intros out.
  - simpl. rewrite app_nil_r. reflexivity.
  - change (run simple_example_rest.simple_streaming_body (d :: ds) out)
      with (run simple_example_rest.simple_streaming_body ds
              (simple_example_rest.simple_streaming_body d out)).
    rewrite IH. unfold simple_example_rest.simple_streaming_body, texts. simpl.
    destruct (content d) as [t|]; simpl; [|reflexivity].
    rewrite <- app_assoc. reflexivity.
Qed.

(** X2. Whatever the request gives, [simple_streaming] echoes the same
    contents and prints the same error as [streaming_with_collection], in
    the same order, and ends the same way. The two differ in their
    headings, and in that [simple_streaming] only says that streaming is
    complete where [streaming_with_collection] shows the complete
    response. *)
Theorem simple_streaming_prints_the_same (create : exception + AsyncStream) :
  fst (simple_example_rest.simple_streaming create)
  = map as_simple_streaming (fst (simple_example.streaming_with_collection create))
  /\ snd (simple_example_rest.simple_streaming create)
     = snd (simple_example.streaming_with_collection create).
Proof.
  destruct create as [e|stream].
  - unfold simple_example_rest.simple_streaming, simple_example.streaming_with_collection.
    simpl. destruct (isinstance_Exception e); split; reflexivity.
  - rewrite streaming_with_collection_any.
    unfold simple_example_rest.simple_streaming.
    rewrite async_for_normal_form, run_simple_streaming.
    destruct (ending stream) as [e|]; simpl.
    + destruct (isinstance_Exception e); simpl;
        rewrite !map_app, map_map; simpl; rewrite ?app_nil_r, <- ?app_assoc;
        split; reflexivity.
    + rewrite !map_app, map_map. simpl. rewrite <- ?app_assoc. split; reflexivity.
Qed.

(** ** The function-calling demo on any stream *)

Lemma content_body d st :
  StreamingDemo.content_parts (StreamingDemo.function_calling_streaming_demo_body d st)
  = StreamingDemo.content_parts st ++ texts [d]
  /\ StreamingDemo.calling_console (StreamingDemo.function_calling_streaming_demo_body d st)
     = StreamingDemo.calling_console st ++ map Content (texts [d]).
Proof.
  unfold StreamingDemo.function_calling_streaming_demo_body, texts. simpl.
  destruct (content d) as [t|]; simpl;
    (destruct (function_call d) as [fc|]; simpl;
     [destruct (truthy (openai.name fc)); simpl;
      [|destruct (truthy (openai.arguments fc)); simpl;
        [destruct (StreamingDemo.function_calls st); simpl|]]
     |]);
    rewrite ?app_nil_r; split; reflexivity.
Qed.

Lemma content_run ds st :
  StreamingDemo.content_parts
    (run StreamingDemo.function_calling_streaming_demo_body ds st)
  = StreamingDemo.content_parts st ++ texts ds
  /\ StreamingDemo.calling_console
       (run StreamingDemo.function_calling_streaming_demo_body ds st)
     = StreamingDemo.calling_console st ++ map Content (texts ds).
Proof.
  revert st. induction ds as [|d ds IH]; intros st.
  - simpl. rewrite !app_nil_r. split; reflexivity.
  - change (run StreamingDemo.function_calling_streaming_demo_body (d :: ds) st)
      with (run StreamingDemo.function_calling_streaming_demo_body ds
              (StreamingDemo.function_calling_streaming_demo_body d st)).
    destruct (IH (StreamingDemo.function_calling_streaming_demo_body d st)) as [-> ->].
    destruct (content_body d st) as [-> ->].
    change (d :: ds) with ([d] ++ ds). rewrite texts_app, map_app, <- !app_assoc.
    split; reflexivity.
Qed.

Lemma print_panels_accepted markup_error calls console :
  Forall (fun c => markup_error (StreamingDemo.panel_text c) = None) calls ->
  StreamingDemo.print_panels markup_error calls console
  = (console ++ map panel_of calls, None).
Proof.
  intros Hcalls. revert console.
  induction Hcalls as [|c calls Hc Hcalls IH]; intros console; simpl.
  - rewrite app_nil_r. reflexivity.
  - unfold console_print. rewrite Hc, IH, <- app_assoc. reflexivity.
Qed.

(** A property of the state that every body keeps is kept by the loop. *)
Lemma async_for_raising_invariant {S : Type}
    (body : ChoiceDelta -> S -> S * option exception) (P : S -> Prop) :
  (forall d st, P st -> P (fst (body d st))) ->
  forall stream st, P st -> P (fst (async_for_raising body stream st)).
Proof.
  intros Hbody stream.
  induction stream as [| e | chunk rest IH]; intros st Hst; simpl; auto.
  destruct (choices_0_delta chunk) as [e|d]; simpl; auto.
  specialize (Hbody d st Hst).
  destruct (body d st) as [st' [e|]]; simpl in *; auto.
Qed.

Lemma loop_prints_no_panel markup_error stream :
  forall name arguments,
    ~ In (FunctionCallPanel name arguments)
         (StreamingDemo.calling_console
            (fst (async_for_raising
                    (StreamingDemo.function_calling_streaming_demo_step markup_error)
                    stream StreamingDemo.calling_entry))).
Proof.
  apply (async_for_raising_invariant
           (StreamingDemo.function_calling_streaming_demo_step markup_error)
           (fun st => forall name arguments,
                ~ In (FunctionCallPanel name arguments)
                     (StreamingDemo.calling_console st))).
  - intros d st Hst name arguments.
    assert (Hbody : ~ In (FunctionCallPanel name arguments)
              (StreamingDemo.calling_console
                 (StreamingDemo.function_calling_streaming_demo_body d st))).
    { destruct (content_body d st) as [_ ->]. intros Hin.
      apply in_app_or in Hin as [Hin|Hin]; [exact (Hst _ _ Hin)|].
      apply in_map_iff in Hin as (t & Habs & _). discriminate. }
    unfold StreamingDemo.function_calling_streaming_demo_step.
    destruct (content d) as [t|]; [|exact Hbody].
    destruct (markup_error t); [apply Hst | exact Hbody].
  - intros name arguments [Habs|[]]. discriminate.
Qed.

(** X3. [function_calling_streaming_demo] shows the recorded calls only
    after its loop has reached the end of the stream: when the loop is
    ended by an exception, of the stream or of the console, no panel is
    printed and the calls recorded so far are lost. When the stream is
    exhausted and the console accepts the contents and the panels, the
    demo echoes each content, shows one panel per recorded call, in order,
    and returns. *)
Theorem function_calling_demo_on_any_stream (markup_error : str -> option str)
    (stream : AsyncStream) :
  (snd (async_for_raising
          (StreamingDemo.function_calling_streaming_demo_step markup_error)
          stream StreamingDemo.calling_entry) <> None ->
   forall name arguments,
     ~ In (FunctionCallPanel name arguments)
          (fst (StreamingDemo.function_calling_streaming_demo markup_error (inr stream))))
  /\ (ending stream = None ->
      Forall (fun t => markup_error t = None) (texts (consumed stream)) ->
      Forall (fun c => markup_error (StreamingDemo.panel_text c) = None)
             (calls_recorded (consumed stream)) ->
      StreamingDemo.function_calling_streaming_demo markup_error (inr stream)
      = (Title :: map Content (texts (consumed stream))
           ++ FunctionCallsDetected :: map panel_of (calls_recorded (consumed stream)),
         Returned)).
Proof.
  split.
  - intros Hended name arguments.
    pose proof (loop_prints_no_panel markup_error stream name arguments) as Hloop.
    unfold StreamingDemo.function_calling_streaming_demo.
    destruct (async_for_raising _ stream StreamingDemo.calling_entry) as [st [e|]];
      [|contradiction]. simpl in *.
    unfold except_Exception, console_print.
    destruct (isinstance_Exception e); [|exact Hloop].
    destruct (markup_error _); simpl; [exact Hloop|].
    intros Hin. apply in_app_or in Hin as [Hin|[Habs|[]]]; [exact (Hloop Hin)|].
    discriminate.
  - intros Hend Hts Hpanels. unfold StreamingDemo.function_calling_streaming_demo.
    rewrite calling_loop_any_accepted by exact Hts. rewrite Hend.
    rewrite function_calls_from_no_calls.
    destruct (content_run (consumed stream) StreamingDemo.calling_entry) as [_ ->].
    rewrite print_panels_accepted by exact Hpanels. simpl.
    rewrite <- app_assoc. reflexivity.
Qed.

Lemma function_calling_demo_on_any_stream_witness :
  (snd (async_for_raising
          (StreamingDemo.function_calling_streaming_demo_step accepts_every_text)
          (yields (map chunk_of get_weather_call) (Raise connection_reset))
          StreamingDemo.calling_entry) <> None
   /\ ending (yields (map chunk_of get_weather_call) StopAsyncIteration) = None
   /\ Forall (fun t => accepts_every_text t = None)
             (texts (consumed (yields (map chunk_of get_weather_call) StopAsyncIteration)))
   /\ Forall (fun c => accepts_every_text (StreamingDemo.panel_text c) = None)
             (calls_recorded
                (consumed (yields (map chunk_of get_weather_call) StopAsyncIteration))))
  /\ ~ In (FunctionCallPanel (lit "get_weather") (loc_key ++ nyc_value))
          (fst (StreamingDemo.function_calling_streaming_demo accepts_every_text
                  (inr (yields (map chunk_of get_weather_call) (Raise connection_reset)))))
  /\ StreamingDemo.function_calling_streaming_demo accepts_every_text
       (inr (yields (map chunk_of get_weather_call) StopAsyncIteration))
     = ([Title; FunctionCallsDetected;
         FunctionCallPanel (lit "get_weather") (loc_key ++ nyc_value)], Returned).
Proof.
  assert (Hpanels :
    Forall (fun c => accepts_every_text (StreamingDemo.panel_text c) = None)
           (calls_recorded
              (consumed (yields (map chunk_of get_weather_call) StopAsyncIteration))))
    by (repeat constructor).
  split; [split; [discriminate | split; [reflexivity | split; [constructor | exact Hpanels]]]|].
  destruct (function_calling_demo_on_any_stream accepts_every_text
              (yields (map chunk_of get_weather_call) (Raise connection_reset)))
    as [Hlost _].
  destruct (function_calling_demo_on_any_stream accepts_every_text
              (yields (map chunk_of get_weather_call) StopAsyncIteration))
    as [_ Hshown].
  split.
  - apply Hlost. discriminate.
  - apply (Hshown eq_refl); [constructor | exact Hpanels].
Defined.

(** ** Invariants of the recorded calls *)

Lemma names_kept_by_body d st :
  Forall (fun c => StreamingDemo.name c <> []) (StreamingDemo.function_calls st) ->
  Forall (fun c => StreamingDemo.name c <> [])
         (StreamingDemo.function_calls
            (StreamingDemo.function_calling_streaming_demo_body d st)).
Proof.
  intros Hst. rewrite function_calls_body.
  destruct (is_start d) eqn:Hd.
  - apply Forall_app. split; [exact Hst|]. constructor; [|constructor]. simpl.
    unfold is_start, start_name in *.
    destruct (function_call d) as [fc|]; [|discriminate].
    destruct (openai.name fc) as [[|c n]|]; simpl in *; discriminate.
  - unfold StreamingDemo.extend_last. apply Forall_alter; [exact Hst|].
    intros c _ Hc. exact Hc.
Qed.

(** X4. No recorded call ever has an empty name: the loop keeps this true
    from any state where it holds, whatever the stream and however it ends,
    so it holds of every call the demo records. *)
Theorem recorded_names_are_not_empty (stream : AsyncStream) (st : StreamingDemo.calling_locals) :
  Forall (fun c => StreamingDemo.name c <> []) (StreamingDemo.function_calls st) ->
  Forall (fun c => StreamingDemo.name c <> [])
         (StreamingDemo.function_calls
            (fst (async_for StreamingDemo.function_calling_streaming_demo_body stream st))).
Proof.
  apply (async_for_invariant StreamingDemo.function_calling_streaming_demo_body
           (fun st => Forall (fun c => StreamingDemo.name c <> [])
                             (StreamingDemo.function_calls st))).
  intros d st'. apply names_kept_by_body.
Qed.

Lemma recorded_names_are_not_empty_witness :
  Forall (fun c => StreamingDemo.name c <> [])
         (StreamingDemo.function_calls StreamingDemo.calling_entry)
  /\ Forall (fun c => StreamingDemo.name c <> [])
            (StreamingDemo.function_calls
               (fst (async_for StreamingDemo.function_calling_streaming_demo_body
                       (yields (map chunk_of get_weather_call) (Raise connection_reset))
                       StreamingDemo.calling_entry))).
Proof.
  split; [constructor|].
  apply (recorded_names_are_not_empty
           (yields (map chunk_of get_weather_call) (Raise connection_reset))
           StreamingDemo.calling_entry).
  constructor.
Defined.

(** X5. Calls are only ever added at the end, and only the last record can
    still change: whatever the stream, all records but the last one are
    found unchanged, at the same positions, when the loop stops; the last
    one keeps its name and its arguments are only extended. *)
Theorem recorded_calls_are_append_only
    (stream : AsyncStream) (st : StreamingDemo.calling_locals) :
  let before := StreamingDemo.function_calls st in
  let after :=
    StreamingDemo.function_calls
      (fst (async_for StreamingDemo.function_calling_streaming_demo_body stream st)) in
  take (length before - 1) before `prefix_of` after
  /\ Forall2 (fun c c' => StreamingDemo.name c' = StreamingDemo.name c
                          /\ StreamingDemo.arguments c `prefix_of` StreamingDemo.arguments c')
             before (take (length before) after).
Proof.
  simpl. rewrite async_for_normal_form. simpl. rewrite function_calls_run.
  destruct (StreamingDemo.function_calls st) as [|c0 calls] using rev_ind.
  - simpl. split; [apply prefix_nil | constructor].
  - clear IHcalls. rewrite extend_last_snoc, length_app. simpl.
    replace (length calls + 1 - 1) with (length calls) by lia.
    rewrite take_app_length. split.
    + rewrite <- app_assoc. apply prefix_app_r. reflexivity.
    + replace (length calls + 1) with (length (calls ++
          [{| StreamingDemo.name := StreamingDemo.name c0;
              StreamingDemo.arguments :=
                StreamingDemo.arguments c0 ++ args_before_next_start (consumed stream) |}]))
        by (rewrite length_app; reflexivity).
      rewrite take_app_length.
      apply Forall2_app.
      * apply Forall_Forall2_diag, Forall_forall. intros c _. split; reflexivity.
      * constructor; [|constructor]. simpl. split; [reflexivity|].
        apply prefix_app_r. reflexivity.
Qed.

(** ** The live statistics on any stream *)

Lemma count_app ch s1 s2 : count ch (s1 ++ s2) = (count ch s1 + count ch s2)%Z.
Proof. unfold count. rewrite List.filter_app, length_app. apply Nat2Z.inj_add. Qed.

Lemma terminators_app s1 s2 :
  terminators (s1 ++ s2) = (terminators s1 + terminators s2)%Z.
Proof. unfold terminators. rewrite !count_app. lia. Qed.

(** The state after a run, and every display on the way, from any state. *)
Lemma run_real_time ds st :
  run StreamingDemo.real_time_processing_demo_body ds st
  = {| StreamingDemo.word_count :=
         StreamingDemo.word_count st + words_counted (texts ds);
       StreamingDemo.sentence_count :=
         StreamingDemo.sentence_count st + terminators (concat (texts ds));
       StreamingDemo.current_sentence :=
         StreamingDemo.current_sentence st ++ concat (texts ds);
       StreamingDemo.live :=
         StreamingDemo.live st ++
         map (fun k =>
                LiveUpdate
                  (StreamingDemo.word_count st + words_counted (take k (texts ds)))
                  (StreamingDemo.sentence_count st
                   + terminators (concat (take k (texts ds))))
                  (len (StreamingDemo.current_sentence st ++ concat (take k (texts ds))))
                  (StreamingDemo.current_sentence st ++ concat (take k (texts ds))))
             (seq 1 (length (texts ds))) |}%Z.
Proof.
  revert st. induction ds as [|d ds IH]; intros st.
  - destruct st as [w s c l]. unfold run, terminators, count. simpl.
    rewrite !app_nil_r. f_equal; lia.
  - change (run StreamingDemo.real_time_processing_demo_body (d :: ds) st)
      with (run StreamingDemo.real_time_processing_demo_body ds
              (StreamingDemo.real_time_processing_demo_body d st)).
    rewrite IH. unfold StreamingDemo.real_time_processing_demo_body, texts. simpl.
    destruct (content d) as [t|]; simpl; [|reflexivity].
    rewrite count_sentences_adds_counts. fold (terminators t).
    rewrite !terminators_app, !app_nil_r, !Z.add_0_r, <- !app_assoc.
    f_equal; [symmetry; apply Z.add_assoc | symmetry; apply Z.add_assoc |].
    f_equal. simpl. f_equal.
    rewrite <- (seq_shift _ 1), map_map. apply map_ext. intros k. simpl.
    rewrite terminators_app, <- !app_assoc.
    f_equal; symmetry; apply Z.add_assoc.
Qed.

(** X6. Whatever the stream and however it ends, when the loop of
    [real_time_processing_demo] stops the text is the concatenation of the
    contents read, the sentence count is the number of '.', '!' and '?' in
    that whole text (it does not depend on how the text was cut into
    chunks), and the word count is the sum of the tokens of each content
    split on its own. *)
Theorem statistics_on_any_stream (stream : AsyncStream) :
  let ts := texts (consumed stream) in
  let final := fst (async_for StreamingDemo.real_time_processing_demo_body stream
                      StreamingDemo.stats_entry) in
  StreamingDemo.current_sentence final = concat ts
  /\ StreamingDemo.sentence_count final = terminators (concat ts)
  /\ StreamingDemo.word_count final = words_counted ts.
Proof.
  simpl. rewrite async_for_normal_form. simpl. rewrite run_real_time. simpl.
  repeat split.
Qed.

(** ** The live word count against a count of the whole text *)

Lemma word_starts_after_space b s :
  word_starts false s <= word_starts b s <= word_starts true s
  /\ word_starts true s <= S (word_starts false s).
Proof.
  destruct s as [|c s]; simpl; [lia|].
  destruct (isspace c); destruct b; lia.
Qed.

(** Cutting a text in two can only add a word, and adds at most one. *)
Lemma word_starts_app b s1 s2 :
  word_starts b s1 + word_starts false s2 <= word_starts b (s1 ++ s2)
  /\ word_starts b (s1 ++ s2) <= word_starts b s1 + word_starts true s2.
Proof.
  revert b. induction s1 as [|c s1 IH]; intros b; simpl.
  - pose proof (word_starts_after_space b s2). lia.
  - destruct (isspace c).
    + apply IH.
    + specialize (IH false). lia.
Qed.

Lemma words_counted_bounds ts :
  (len (split (concat ts)) <= words_counted ts
   <= len (split (concat ts)) + Z.of_nat (length ts - 1))%Z.
Proof.
  unfold len. induction ts as [|t ts IH]; simpl; [lia|].
  unfold len in *. rewrite !length_split in *. rewrite Nat.sub_0_r.
  pose proof (word_starts_app true t (concat ts)) as [Hlow Hhigh].
  pose proof (word_starts_after_space true (concat ts)) as [_ Hone].
  destruct ts as [|t' ts].
  - simpl in *. rewrite app_nil_r. lia.
  - simpl length in *. lia.
Qed.

(** X7. The live word count never falls short of the number of words of
    the whole text received, and exceeds it by at most one per boundary
    between two contents: with [n] contents read, by at most [n - 1]. *)
Theorem live_word_count_bounds (stream : AsyncStream) :
  let ts := texts (consumed stream) in
  let final := fst (async_for StreamingDemo.real_time_processing_demo_body stream
                      StreamingDemo.stats_entry) in
  (len (split (StreamingDemo.current_sentence final)) <= StreamingDemo.word_count final
   <= len (split (StreamingDemo.current_sentence final)) + Z.of_nat (length ts - 1))%Z.
Proof.
  simpl. rewrite async_for_normal_form. simpl. rewrite run_real_time. simpl.
  apply words_counted_bounds.
Qed.

(** Both bounds are reached. *)
Example live_word_count_exact :
  words_counted [lit "Hello "; lit "world"] = len (split (lit "Hello world")).
Proof. reflexivity. Qed.

Example live_word_count_over :
  words_counted [lit "Hel"; lit "lo wo"; lit "rld"]
  = (len (split (lit "Hello world")) + 2)%Z.
Proof. reflexivity. Qed.


(** ** The interactive session *)

Lemma run_interactive_streaming ds st :
  run simple_example_rest.interactive_streaming_body ds st
  = {| simple_example_rest.response_content :=
         simple_example_rest.response_content st ++ concat (texts ds);
       simple_example_rest.shown :=
         simple_example_rest.shown st ++ map (fun t => Print (Content t)) (texts ds) |}.
Proof.
  revert st. induction ds as [|d ds IH]; intros [rc out].
  - simpl. rewrite !app_nil_r. reflexivity.
  - change (run simple_example_rest.interactive_streaming_body (d :: ds)
              {| simple_example_rest.response_content := rc;
                 simple_example_rest.shown := out |})
      with (run simple_example_rest.interactive_streaming_body ds
              (simple_example_rest.interactive_streaming_body d
                 {| simple_example_rest.response_content := rc;
                    simple_example_rest.shown := out |})).
    rewrite IH. unfold simple_example_rest.interactive_streaming_body, texts. simpl.
    destruct (content d) as [t|]; simpl; [|reflexivity].
    rewrite <- !app_assoc. reflexivity.
Qed.

Section InteractiveFacts.
Variable lower : str -> str.
Variable create : nat -> list simple_example_rest.message -> exception + AsyncStream.

(** X9. A turn whose stream is read to its end stores as the assistant's
    message exactly the concatenation of what was echoed during the turn,
    after the user's message; the request of the turn carried the whole
    history with the user's new message last, and the session goes on with
    the next line typed. *)
Theorem answered_turn_is_recorded
    (user_input : str) (stdin : list str) (n : nat)
    (history : list simple_example_rest.message) (out : list event)
    (stream : AsyncStream) :
  lower user_input ∉ simple_example_rest.quit_words ->
  create n (history ++ [user_says user_input]) = inr stream ->
  ending stream = None ->
  simple_example_rest.interactive_loop lower create (user_input :: stdin) n history out
  = simple_example_rest.interactive_loop lower create stdin (S n)
      (history ++ [user_says user_input; assistant_says (concat (texts (consumed stream)))])
      (out ++ [Prompt; AIPrefix]
           ++ map (fun t => Print (Content t)) (texts (consumed stream))).
Proof.
  intros Hquit Hcreate Hend. simpl.
  rewrite bool_decide_eq_false_2 by exact Hquit.
  unfold user_says in Hcreate. rewrite Hcreate.
  rewrite async_for_normal_form, Hend, run_interactive_streaming. simpl.
  rewrite <- !app_assoc. reflexivity.
Qed.

(** X10. A turn that fails with an [Exception], at the request or while
    the reply is streamed, leaves the user's message in the history with no
    reply after it: what was streamed of the reply is dropped, the error is
    printed, and the session goes on with the next line typed. *)
Theorem failed_turn_keeps_the_question
    (user_input : str) (stdin : list str) (n : nat)
    (history : list simple_example_rest.message) (out : list event)
    (e : exception) :
  lower user_input ∉ simple_example_rest.quit_words ->
  isinstance_Exception e = true ->
  (create n (history ++ [user_says user_input]) = inl e ->
   simple_example_rest.interactive_loop lower create (user_input :: stdin) n history out
   = simple_example_rest.interactive_loop lower create stdin (S n)
       (history ++ [user_says user_input])
       (out ++ [Prompt; AIPrefix; Print (ErrorMessage e)]))
  /\ (forall stream,
       create n (history ++ [user_says user_input]) = inr stream ->
       ending stream = Some e ->
       simple_example_rest.interactive_loop lower create (user_input :: stdin) n history out
       = simple_example_rest.interactive_loop lower create stdin (S n)
           (history ++ [user_says user_input])
           (out ++ [Prompt; AIPrefix]
                ++ map (fun t => Print (Content t)) (texts (consumed stream))
                ++ [Print (ErrorMessage e)])).
Proof.
  intros Hquit He. split.
  - intros Hcreate. simpl.
    rewrite bool_decide_eq_false_2 by exact Hquit.
    unfold user_says in Hcreate. rewrite Hcreate, He.
    rewrite <- !app_assoc. reflexivity.
  - intros stream Hcreate Hend. simpl.
    rewrite bool_decide_eq_false_2 by exact Hquit.
    unfold user_says in Hcreate. rewrite Hcreate.
    rewrite async_for_normal_form, Hend, run_interactive_streaming, He. simpl.
    rewrite <- !app_assoc. reflexivity.
Qed.

End InteractiveFacts.

Lemma user_texts_app h1 h2 : user_texts (h1 ++ h2) = user_texts h1 ++ user_texts h2.
Proof.
  induction h1 as [|m h1 IH]; simpl; [reflexivity|].
  destruct (simple_example_rest.role m); simpl; rewrite IH; reflexivity.
Qed.

Lemma replies_follow_requests_user b h text :
  replies_follow_requests b (h ++ [user_says text]) = replies_follow_requests b h.
Proof.
  revert b. induction h as [|m h IH]; intros b; simpl; [reflexivity|].
  destruct (simple_example_rest.role m); rewrite IH; reflexivity.
Qed.

Lemma replies_follow_requests_answered b h text reply :
  replies_follow_requests b (h ++ [user_says text; assistant_says reply])
  = replies_follow_requests b h.
Proof.
  revert b. induction h as [|m h IH]; intros b; simpl; [reflexivity|].
  destruct (simple_example_rest.role m); rewrite IH; reflexivity.
Qed.

Section InteractiveSession.
Variable lower : str -> str.
Variable create : nat -> list simple_example_rest.message -> exception + AsyncStream.

(** What the loop does to the history, from any point of a session. *)
Lemma interactive_loop_history stdin n history out :
  let '(history', _, ended) :=
    simple_example_rest.interactive_loop lower create stdin n history out in
  history `prefix_of` history'
  /\ (replies_follow_requests false history = true ->
      replies_follow_requests false history' = true)
  /\ match ended with
     | simple_example_rest.Interrupt _ =>
         user_texts history' `prefix_of` user_texts history ++ typed_before_quit lower stdin
     | _ => user_texts history' = user_texts history ++ typed_before_quit lower stdin
     end.
Proof.
  revert n history out. induction stdin as [|user_input stdin IH]; intros n history out.
  - simpl. rewrite app_nil_r. repeat split; auto.
  - simpl. destruct (bool_decide _) eqn:Hquit.
    + rewrite app_nil_r. repeat split; auto.
    + fold (user_says user_input).
      assert (Hstep : forall n' out',
        let '(history', _, ended) :=
          simple_example_rest.interactive_loop lower create stdin n'
            (history ++ [user_says user_input]) out' in
        history `prefix_of` history'
        /\ (replies_follow_requests false history = true ->
            replies_follow_requests false history' = true)
        /\ match ended with
           | simple_example_rest.Interrupt _ =>
               user_texts history' `prefix_of`
                 user_texts history ++ user_input :: typed_before_quit lower stdin
           | _ => user_texts history'
                  = user_texts history ++ user_input :: typed_before_quit lower stdin
           end).
      { intros n' out'.
        specialize (IH n' (history ++ [user_says user_input]) out').
        destruct (simple_example_rest.interactive_loop _ _ _ _ _ _) as [[h' o'] e'].
        destruct IH as (Hpre & Hshape & Husers).
        rewrite user_texts_app, replies_follow_requests_user in *.
        simpl in Husers. rewrite <- app_assoc in Husers. simpl in Husers.
        split; [eapply prefix_app_l; exact Hpre | split; [exact Hshape | exact Husers]]. }
      assert (Hstop :
        history `prefix_of` history ++ [user_says user_input]
        /\ (replies_follow_requests false history = true ->
            replies_follow_requests false (history ++ [user_says user_input]) = true)
        /\ user_texts (history ++ [user_says user_input]) `prefix_of`
             user_texts history ++ user_input :: typed_before_quit lower stdin).
      { rewrite user_texts_app, replies_follow_requests_user. simpl.
        split; [apply prefix_app_r; reflexivity | split; [auto|]].
        apply prefix_app. apply prefix_cons. apply prefix_nil. }
      destruct (create n (history ++ [user_says user_input])) as [e|stream].
      * destruct (isinstance_Exception e); [apply Hstep | apply Hstop].
      * destruct (async_for _ _ _) as [st [e|]].
        -- destruct (isinstance_Exception e); [apply Hstep | apply Hstop].
        -- fold (assistant_says (simple_example_rest.response_content st)).
           specialize (IH (S n)
                          ((history ++ [user_says user_input])
                           ++ [assistant_says (simple_example_rest.response_content st)])
                          (simple_example_rest.shown st)).
           destruct (simple_example_rest.interactive_loop _ _ _ _ _ _) as [[h' o'] e'].
           destruct IH as (Hpre & Hshape & Husers).
           rewrite <- app_assoc in Hpre, Hshape, Husers. simpl in Hpre, Hshape, Husers.
           rewrite user_texts_app, replies_follow_requests_answered in *.
           simpl in Husers. rewrite <- app_assoc in Husers. simpl in Husers.
           split; [eapply prefix_app_l; exact Hpre | split; [exact Hshape | exact Husers]].
Qed.

(** X11. When [interactive_streaming] is left by a quit word or at the end
    of the input, the user's messages in the history are exactly the lines
    typed before the first quit word, in order, whether or not their turn
    succeeded; lines after a quit word never reach the history. When it is
    left by an interrupt, they are the first of those lines. *)
Theorem history_holds_what_was_typed (stdin : list str) :
  let '(history, _, ended) :=
    simple_example_rest.interactive_streaming lower create stdin in
  match ended with
  | simple_example_rest.Interrupt _ =>
      user_texts history `prefix_of` typed_before_quit lower stdin
  | _ => user_texts history = typed_before_quit lower stdin
  end.
Proof.
  unfold simple_example_rest.interactive_streaming.
  pose proof (interactive_loop_history stdin 0 [] [Print Title]) as H.
  destruct (simple_example_rest.interactive_loop _ _ _ _ _ _) as [[h o] e].
  destruct H as (_ & _ & H). exact H.
Qed.

(** X12. In the history [interactive_streaming] builds, every assistant
    message comes directly after a user message: a reply is never stored
    without its question, and never twice. User messages can follow one
    another, after failed turns. *)
Theorem replies_directly_follow_requests (stdin : list str) :
  replies_follow_requests false
    (fst (fst (simple_example_rest.interactive_streaming lower create stdin)))
  = true.
Proof.
  unfold simple_example_rest.interactive_streaming.
  pose proof (interactive_loop_history stdin 0 [] [Print Title]) as H.
  destruct (simple_example_rest.interactive_loop _ _ _ _ _ _) as [[h o] e].
  destruct H as (_ & H & _). simpl. apply H. reflexivity.
Qed.

End InteractiveSession.


Lemma answered_turn_is_recorded_witness :
  ((ascii_lower (lit "Hello") ∉ simple_example_rest.quit_words)
   /\ says_hi 0 ([] ++ [user_says (lit "Hello")])
      = inr (yields (map chunk_of [content_fragment (lit "Hi")]) StopAsyncIteration)
   /\ ending (yields (map chunk_of [content_fragment (lit "Hi")]) StopAsyncIteration) = None)
  /\ simple_example_rest.interactive_loop ascii_lower says_hi
       [lit "Hello"; lit "QUIT"] 0 [] [Print Title]
     = simple_example_rest.interactive_loop ascii_lower says_hi [lit "QUIT"] 1
         [user_says (lit "Hello"); assistant_says (lit "Hi")]
         [Print Title; Prompt; AIPrefix; Print (Content (lit "Hi"))].
Proof.
  assert (Hquit : ascii_lower (lit "Hello") ∉ simple_example_rest.quit_words).
  { apply (bool_decide_eq_false_1 _). reflexivity. }
  split; [split; [exact Hquit | split; reflexivity]|].
  apply (answered_turn_is_recorded ascii_lower says_hi (lit "Hello") [lit "QUIT"] 0 []
           [Print Title]
           (yields (map chunk_of [content_fragment (lit "Hi")]) StopAsyncIteration));
    [exact Hquit | reflexivity | reflexivity].
Defined.

Lemma failed_turn_keeps_the_question_witness :
  ((ascii_lower (lit "Hello") ∉ simple_example_rest.quit_words)
   /\ isinstance_Exception connection_reset = true
   /\ always_fails 0 ([] ++ [user_says (lit "Hello")]) = inl connection_reset)
  /\ simple_example_rest.interactive_loop ascii_lower always_fails
       [lit "Hello"; lit "Bye"] 0 [] [Print Title]
     = simple_example_rest.interactive_loop ascii_lower always_fails [lit "Bye"] 1
         [user_says (lit "Hello")]
         [Print Title; Prompt; AIPrefix; Print (ErrorMessage connection_reset)].
Proof.
  assert (Hquit : ascii_lower (lit "Hello") ∉ simple_example_rest.quit_words).
  { apply (bool_decide_eq_false_1 _). reflexivity. }
  split; [split; [exact Hquit | split; reflexivity]|].
  apply (failed_turn_keeps_the_question ascii_lower always_fails (lit "Hello") [lit "Bye"] 0 []
           [Print Title] connection_reset);
    [exact Hquit | reflexivity | reflexivity].
Defined.

Example a_session :
  simple_example_rest.interactive_streaming ascii_lower says_hi
    [lit "Hello"; lit "Thanks"; lit "QUIT"; lit "never read"]
  = ([user_says (lit "Hello"); assistant_says (lit "Hi");
      user_says (lit "Thanks"); assistant_says (lit "Hi")],
     [Print Title;
      Prompt; AIPrefix; Print (Content (lit "Hi"));
      Prompt; AIPrefix; Print (Content (lit "Hi"));
      Prompt; Goodbye],
     simple_example_rest.Quit).
Proof. reflexivity. Qed.

(** ** error_handling_demo and the loop of run_all_demos *)

Lemma drain_yields chunks rest :
  StreamingDemo_rest.drain (yields chunks rest) = StreamingDemo_rest.drain rest.
Proof. induction chunks as [|chunk chunks IH]; simpl; [reflexivity | exact IH]. Qed.

(** X14. In the loop of [run_all_demos], when every demo returns, each is
    shown in turn under its number and followed by the separator, the
    closing panel is shown after the last, and the run returns. *)
Theorem all_demos_shown_when_all_return
    (i total : nat) (demos : list (list event * outcome)) (out : list event) :
  Forall (fun d => snd d = Returned) demos ->
  StreamingDemo_rest.run_demos i total demos out
  = (out ++ rendered i total demos ++ [AllDemosCompleted], Returned).
Proof.
  intros Hall. revert i out.
  induction Hall as [|[printed_by_demo ended] demos Hd Hall IH]; intros i out; simpl.
  - reflexivity.
  - simpl in Hd. subst ended. rewrite IH, <- !app_assoc. reflexivity.
Qed.

Lemma all_demos_shown_when_all_return_witness :
  Forall (fun d : list event * outcome => snd d = Returned)
         [([Print Title; Print (Content (lit "Hi"))], Returned);
          ([Print Title; NoErrorsOccurred], Returned)]
  /\ StreamingDemo_rest.run_demos 1 2
       [([Print Title; Print (Content (lit "Hi"))], Returned);
        ([Print Title; NoErrorsOccurred], Returned)]
       [Print Title]
     = ([Print Title; DemoNumber 1 2; Print Title; Print (Content (lit "Hi")); Separator;
         DemoNumber 2 2; Print Title; NoErrorsOccurred; Separator; AllDemosCompleted],
        Returned).
Proof.
  split; [repeat constructor|].
  apply (all_demos_shown_when_all_return 1 2
           [([Print Title; Print (Content (lit "Hi"))], Returned);
            ([Print Title; NoErrorsOccurred], Returned)]
           [Print Title]).
  repeat constructor.
Defined.

(** X15. In the loop of [run_all_demos], the first demo that lets an
    exception through ends the run: the demos before it are shown in full,
    its own lines are the last ones printed, no later demo is started, the
    closing panel is not shown, and the exception leaves [run_all_demos]. *)
Theorem run_stops_at_first_escape
    (i total : nat) (before after : list (list event * outcome))
    (printed_by_demo : list event) (e : exception) (out : list event) :
  Forall (fun d => snd d = Returned) before ->
  StreamingDemo_rest.run_demos i total
    (before ++ (printed_by_demo, Propagated e) :: after) out
  = (out ++ rendered i total before
         ++ DemoNumber (i + length before) total :: printed_by_demo,
     Propagated e).
Proof.
  intros Hall. revert i out.
  induction Hall as [|[printed_before ended] before Hd Hall IH]; intros i out; simpl.
  - rewrite Nat.add_0_r. reflexivity.
  - simpl in Hd. subst ended. rewrite IH, <- !app_assoc. simpl.
    rewrite <- ?app_assoc. simpl. rewrite Nat.add_succ_r. reflexivity.
Qed.

Lemma run_stops_at_first_escape_witness :
  Forall (fun d : list event * outcome => snd d = Returned)
         [([Print Title; Print (Content (lit "Hi"))], Returned)]
  /\ StreamingDemo_rest.run_demos 1 4
       ([([Print Title; Print (Content (lit "Hi"))], Returned)]
        ++ ([Print Title], Propagated KeyboardInterrupt)
        :: [([Print Title; NoErrorsOccurred], Returned)])
       [Print Title]
     = ([Print Title; DemoNumber 1 4; Print Title; Print (Content (lit "Hi")); Separator;
         DemoNumber 2 4; Print Title],
        Propagated KeyboardInterrupt).
Proof.
  split; [repeat constructor|].
  apply (run_stops_at_first_escape 1 4
           [([Print Title; Print (Content (lit "Hi"))], Returned)]
           [([Print Title; NoErrorsOccurred], Returned)]
           [Print Title] KeyboardInterrupt [Print Title]).
  repeat constructor.
Defined.

Section ErrorHandlingFacts.
Variable markup_error : str -> option str.
Variable isinstance_BadRequestError : exception -> bool.
Variable isinstance_AuthenticationError : exception -> bool.
Variable isinstance_RateLimitError : exception -> bool.

Local Abbreviation error_handling_demo :=
  (StreamingDemo_rest.error_handling_demo markup_error
     isinstance_BadRequestError isinstance_AuthenticationError isinstance_RateLimitError).

(** X13. [error_handling_demo] never looks at the chunks: whatever chunks a
    stream yields first, with or without choices, the demo does what it
    does for the rest of the stream. When it returns it has printed exactly
    one line after its title. When an exception leaves it, it has printed
    nothing after its title, and the exception is either the one it met,
    which no handler caught, or the console's [MarkupError] on the message
    of the handler that caught it. *)
Theorem error_handling_demo_reads_no_chunk
    (chunks : list ChatCompletionChunk) (rest : AsyncStream)
    (create : exception + AsyncStream) :
  error_handling_demo (inr (yields chunks rest)) = error_handling_demo (inr rest)
  /\ match snd (error_handling_demo create) with
     | Returned => length (fst (error_handling_demo create)) = 2
     | Propagated e =>
         fst (error_handling_demo create) = [Print Title]
         /\ ((raised_unread create = Some e /\ isinstance_Exception e = false)
             \/ exists message, e = MarkupError message)
     end.
Proof.
  split.
  - unfold StreamingDemo_rest.error_handling_demo.
    rewrite drain_yields. reflexivity.
  - unfold StreamingDemo_rest.error_handling_demo, raised_unread,
      StreamingDemo_rest.handle, console_print.
    destruct (match create with inl e => Some e | inr stream => _ end) as [e|];
      simpl; [|reflexivity].
    destruct (isinstance_BadRequestError e);
      [destruct (markup_error _); simpl; eauto|].
    destruct (isinstance_AuthenticationError e);
      [destruct (markup_error _); simpl; eauto|].
    destruct (isinstance_RateLimitError e);
      [destruct (markup_error _); simpl; eauto|].
    destruct (isinstance_Exception e) eqn:He;
      [destruct (markup_error _); simpl; eauto|].
    simpl. split; [reflexivity|]. left. split; [reflexivity | exact He].
Qed.

End ErrorHandlingFacts.

Example a_chunk_without_choices_is_not_read :
  StreamingDemo_rest.error_handling_demo accepts_every_text
    is_bad_request is_authentication is_rate_limit
    (inr (Yield {| choices := [] |} StopAsyncIteration))
  = ([Print Title; NoErrorsOccurred], Returned).
Proof. reflexivity. Qed.

Example a_bad_request_is_handled :
  StreamingDemo_rest.error_handling_demo accepts_every_text
    is_bad_request is_authentication is_rate_limit
    (inl (APIError (lit "BadRequestError")))
  = ([Print Title; HandledBadRequestError (APIError (lit "BadRequestError"))], Returned).
Proof. reflexivity. Qed.
